(** * eg: example search for Rust crates — a shallow embedding

    The modules embedded here are [src/rust/version.rs], [src/rust/cache.rs],
    [src/rust/extraction.rs], [src/rust/github.rs], [src/rust/mod.rs] and the
    data types of [src/lib.rs] and [src/error.rs].

    Conventions:
    - a Rust [&str]/[String] holding file contents is a [text]: the list of
      its Unicode scalar values; its UTF-8 byte offsets are recomputed with
      [utf8_len];
    - names, versions, URLs and paths are Stdlib [string]s;
    - [u32] and [usize] values are [Z]; every [as u32] cast and every [u32]
      increment is written out with its wrap-around modulo [2^32] (release
      build semantics);
    - external crates ([semver], [regex], [base64], UTF-8 decoding) are type
      classes: the theorems hold for every instance;
    - I/O goes through a reader/writer/error monad [M] over a [World] that
      answers every external query, and a log of [Event]s records each
      query the program issues. *)

From Stdlib Require Import ZArith List String Ascii Bool Lia.
From Stdlib Require Import Sorting.Sorted.
Import ListNotations.
Open Scope Z_scope.

(* ------------------------------------------------------------------ *)
(** ** Machine integers *)

Definition u32_modulus : Z := 2 ^ 32.

(** [x as u32] for a non-negative [usize]. *)
Definition as_u32 (z : Z) : Z := z mod u32_modulus.

(** [x += 1] on a [u32] (wrapping, as in a release build). *)
Definition u32_incr (z : Z) : Z := (z + 1) mod u32_modulus.

(* ------------------------------------------------------------------ *)
(** ** Text *)

(** A Rust [str]: its Unicode scalar values. *)
Definition text := list Z.

(** Number of UTF-8 bytes encoding a scalar value ([char::len_utf8]). *)
Definition utf8_len (c : Z) : Z :=
  if c <? 128 then 1 else if c <? 2048 then 2 else if c <? 65536 then 3 else 4.

(** [str::len]: the byte length. *)
Fixpoint byte_len (t : text) : Z :=
  match t with
  | [] => 0
  | c :: t' => utf8_len c + byte_len t'
  end.

Definition newline : Z := 10.

(* ------------------------------------------------------------------ *)
(** ** Library interfaces *)

(** The [regex] crate: [Regex::new] and [Regex::find_iter], the latter
    giving the [(start, end)] byte offsets of each match, in order. *)
Class RegexEngine := {
  Regex : Type;
  regex_new : string -> Regex + string;
  find_iter : Regex -> text -> list (Z * Z)
}.

(** The guarantee of [find_iter] that the matcher relies on: every match is
    a byte range inside the haystack. *)
Definition find_iter_in_bounds `{RegexEngine} : Prop :=
  forall r t s e, In (s, e) (find_iter r t) -> 0 <= s <= e /\ e <= byte_len t.

(* ------------------------------------------------------------------ *)
(** ** Data model ([src/lib.rs]) *)

Record SearchRange := {
  byte_start : Z;
  line_start : Z;
  column_start : Z;
  byte_end : Z;
  line_end : Z;
  column_end : Z
}.

Inductive Example :=
| ExampleOnDisk (path : string) (search_matches : list SearchRange)
| ExampleInMemory (filename : string) (contents : text)
    (search_matches : list SearchRange).

(** [Example::search_matches] ([src/rust/mod.rs]). *)
Definition example_search_matches (e : Example) : list SearchRange :=
  match e with
  | ExampleOnDisk _ m => m
  | ExampleInMemory _ _ m => m
  end.

Record SearchResult := {
  sr_version : string;
  total_examples : Z;
  matched_examples : Z;
  examples : list Example
}.

(* ------------------------------------------------------------------ *)
(** ** Pattern matcher ([CrateExtractor::find_matches], [byte_to_line_col]).

    [GitHubFallback] carries a verbatim copy of both functions
    ([src/rust/github.rs]); both copies are this definition. *)

(** The [for (i, ch) in content.char_indices()] loop of [byte_to_line_col],
    [i] being the byte offset of [ch]. *)
Fixpoint b2lc_loop (t : text) (i byte_pos line col : Z) : Z * Z :=
  match t with
  | [] => (line, col)
  | ch :: t' =>
      if byte_pos <=? i then (line, col)
      else if ch =? newline
           then b2lc_loop t' (i + utf8_len ch) byte_pos (u32_incr line) 1
           else b2lc_loop t' (i + utf8_len ch) byte_pos line (u32_incr col)
  end.

Definition byte_to_line_col (content : text) (byte_pos : Z) : Z * Z :=
  b2lc_loop content 0 byte_pos 1 1.

Definition match_to_range (content : text) (m : Z * Z) : SearchRange :=
  let (start_pos, end_pos) := m in
  let (start_line, start_col) := byte_to_line_col content start_pos in
  let (end_line, end_col) := byte_to_line_col content end_pos in
  {| byte_start := as_u32 start_pos;
     line_start := start_line;
     column_start := start_col;
     byte_end := as_u32 end_pos;
     line_end := end_line;
     column_end := end_col |}.

Definition find_matches `{RegexEngine} (content : text) (regex : Regex)
  : list SearchRange :=
  map (match_to_range content) (find_iter regex content).

(* ------------------------------------------------------------------ *)
(** ** String helpers (the [str] methods the code calls) *)

Notation "a +s+ b" := (String.append a b) (at level 60, right associativity).

(** [haystack.contains(needle)]. *)
Definition str_contains (needle haystack : string) : bool :=
  match String.index 0 needle haystack with Some _ => true | None => false end.

(** [s.ends_with(suffix)]. *)
Definition str_ends_with (suffix s : string) : bool :=
  let n := String.length s in
  let k := String.length suffix in
  (Nat.leb k n && String.eqb (String.substring (n - k) k s) suffix)%bool.

(** [s.trim_end_matches(suffix)] for a non-empty [suffix]: strips the suffix
    as many times as it occurs. *)
Fixpoint trim_end_fuel (fuel : nat) (suffix s : string) : string :=
  match fuel with
  | O => s
  | S fuel' =>
      if str_ends_with suffix s
      then trim_end_fuel fuel'
             suffix (String.substring 0 (String.length s - String.length suffix) s)
      else s
  end.

Definition str_trim_end_matches (suffix s : string) : string :=
  trim_end_fuel (String.length s) suffix s.

(** [s.split(c)]: always at least one piece. *)
Fixpoint split_aux (c : ascii) (s cur : string) : list string :=
  match s with
  | EmptyString => [cur]
  | String a s' =>
      if Ascii.eqb a c then cur :: split_aux c s' EmptyString
      else split_aux c s' (cur +s+ String a EmptyString)
  end.

Definition str_split (c : ascii) (s : string) : list string :=
  split_aux c s EmptyString.

(** [s.replace('\n', ...)] with the empty replacement. *)
Fixpoint remove_newlines (s : string) : string :=
  match s with
  | EmptyString => EmptyString
  | String a s' =>
      if Ascii.eqb a (ascii_of_nat 10) then remove_newlines s'
      else String a (remove_newlines s')
  end.

(* ------------------------------------------------------------------ *)
(** ** Paths ([std::path::Path] on Unix) *)

Definition slash : ascii := "/"%char.

Definition is_normal_piece (s : string) : bool :=
  negb (String.eqb s EmptyString) && negb (String.eqb s ".").

(** [path.components()], each given by its [as_os_str()]: a leading ["/"]
    is [RootDir], a leading ["."] is [CurDir], empty pieces and inner ["."]
    are dropped. *)
Definition path_components (p : string) : list string :=
  match p with
  | EmptyString => []
  | _ =>
      match str_split slash p with
      | EmptyString :: rest => "/"%string :: filter is_normal_piece rest
      | "."%string :: rest => "."%string :: filter is_normal_piece rest
      | pieces => filter is_normal_piece pieces
      end
  end.

(** [path.file_name()]: the last component when it is a [Normal] one. *)
Definition path_file_name (p : string) : option string :=
  match rev (path_components p) with
  | last :: _ =>
      if (String.eqb last "/" || String.eqb last "." || String.eqb last "..")%bool
      then None else Some last
  | [] => None
  end.

(** [rsplit_file_at_dot] followed by [before.and(after)]: the text after
    the last ['.'], unless there is no ['.'] or the only text before it is
    empty. *)
Definition file_extension (name : string) : option string :=
  let pieces := rev (str_split "."%char name) in
  match pieces with
  | after :: before :: rest =>
      match rest, before with
      | [], EmptyString => None
      | _, _ => Some after
      end
  | _ => None
  end.

(** [path.extension()]. *)
Definition path_extension (p : string) : option string :=
  match path_file_name p with
  | Some n => file_extension n
  | None => None
  end.

(** [CrateExtractor::is_example_file]. *)
Definition is_example_file (path : string) : bool :=
  existsb (fun c => String.eqb c "examples") (path_components path) &&
  match path_extension path with
  | Some ext => String.eqb ext "rs"
  | None => false
  end.

(** Well-formed UTF-8 ([core::str::from_utf8]): the lead byte fixes the
    length of a sequence; continuation bytes lie in [0x80..0xBF], except
    after [0xE0] ([0xA0..]: no overlong form), [0xED] ([..0x9F]: no
    surrogate), [0xF0] ([0x90..]: no overlong form) and [0xF4] ([..0x8F]:
    nothing above U+10FFFF). *)
Definition byte_in (lo hi b : Z) : bool := (lo <=? b) && (b <=? hi).

Fixpoint utf8_valid (bs : list Z) : bool :=
  match bs with
  | [] => true
  | b0 :: r1 =>
      if b0 <? 128 then utf8_valid r1 else
      match r1 with
      | [] => false
      | b1 :: r2 =>
          if byte_in 194 223 b0 then byte_in 128 191 b1 && utf8_valid r2 else
          match r2 with
          | [] => false
          | b2 :: r3 =>
              if byte_in 224 239 b0 then
                byte_in (if b0 =? 224 then 160 else 128)
                        (if b0 =? 237 then 159 else 191) b1 &&
                byte_in 128 191 b2 && utf8_valid r3
              else
              match r3 with
              | [] => false
              | b3 :: r4 =>
                  byte_in 240 244 b0 &&
                  byte_in (if b0 =? 240 then 144 else 128)
                          (if b0 =? 244 then 143 else 191) b1 &&
                  byte_in 128 191 b2 && byte_in 128 191 b3 && utf8_valid r4
              end
          end
      end
  end.

(** The bytes of an [OsStr] (Unix). *)
Definition os_bytes (s : string) : list Z :=
  map (fun a => Z.of_nat (nat_of_ascii a)) (list_ascii_of_string s).

(** [OsStr::to_str]: the name when it is valid UTF-8. *)
Definition os_str_to_str (s : string) : option string :=
  if utf8_valid (os_bytes s) then Some s else None.

(** [path.file_name().and_then(|n| n.to_str()).unwrap_or("unknown")]. *)
Definition entry_filename (path : string) : string :=
  match match path_file_name path with
        | Some n => os_str_to_str n
        | None => None
        end with
  | Some n => n
  | None => "unknown"%string
  end.

(* ------------------------------------------------------------------ *)
(** ** Further library interfaces *)

(** The [semver] crate: [Version::parse], [Version::to_string], the [Ord]
    of [Version] (as a boolean [<=]), [VersionReq::parse] and
    [VersionReq::matches]. *)
Class Semver := {
  Version : Type;
  version_parse : string -> option Version;
  version_to_string : Version -> string;
  version_le : Version -> Version -> bool;
  VersionReq : Type;
  req_parse : string -> VersionReq + string;
  req_matches : VersionReq -> Version -> bool
}.

(** [Ord] is a total order. *)
Definition version_order `{Semver} : Prop :=
  (forall a b, version_le a b = true \/ version_le b a = true) /\
  (forall a b c, version_le a b = true -> version_le b c = true ->
                 version_le a c = true).

(** [base64::decode] and [String::from_utf8]; bytes are [Z]s. *)
Class Codecs := {
  base64_decode : string -> option (list Z);
  from_utf8 : list Z -> option text
}.

(* ------------------------------------------------------------------ *)
(** ** Errors ([src/error.rs]); payloads are the messages the code formats *)

Inductive EgError :=
| ProjectError (msg : string)
| VersionError (msg : string)
| CargoHomeNotFound
| CacheError (msg : string)
| DownloadError (msg : string)
| ExtractionError (msg : string)
| GitHubError (msg : string)
| IoError (msg : string)
| CrateNotFound (name : string)
| NoMatchingVersions (crate_name constraint : string)
| NoRepositoryUrl (name : string)
| InvalidGitHubUrl (url : string)
| Base64Error
| Utf8Error
| Other (msg : string).

Inductive result (A : Type) :=
| Ok (a : A)
| Err (e : EgError).
Arguments Ok {A} a.
Arguments Err {A} e.

(* ------------------------------------------------------------------ *)
(** ** The outside world *)

(** [crates_io_api] crate metadata. *)
Record CrateData := {
  max_version : string;
  repository : option string
}.

(** One entry of a [tar] stream: its path and, when it can be read as UTF-8
    text, its contents; or an entry whose header or path cannot be read. *)
Inductive ArchiveItem :=
| Entry (path : string) (body : option text)
| BadEntry.

(** A [.crate] file: [None] when it is not a gzip-compressed tar stream. *)
Definition Archive := option (list ArchiveItem).

(** An item of a GitHub contents listing. *)
Record GhFile := {
  gh_name : string;
  gh_content : option string
}.

Inductive Content :=
| ContentFile (f : GhFile)
| ContentOther (name : string).

(** Why a GitHub contents request failed. *)
Inductive GhFailure :=
| GhNotFound
| GhTransport.

Record World := {
  (** [cargo metadata] of the enclosing project: (name, version) of every
      package of the resolved graph, or [None] when the command fails *)
  w_metadata : option (list (string * string));
  (** whether [crates_io_api::SyncClient::new] succeeds *)
  w_client_ok : bool;
  (** [client.crate_versions(name)]: the version numbers, or a failure *)
  w_crate_versions : string -> option (list string);
  (** [client.get_crate(name)] *)
  w_get_crate : string -> option CrateData;
  (** [home::cargo_home()] *)
  w_cargo_home : option string;
  (** the files on disk: the archive stored at a path *)
  w_files : string -> option Archive;
  (** [reqwest::get(url)]: status and body, or a transport failure *)
  w_http_get : string -> option (Z * Archive);
  (** environment variables *)
  w_env : string -> option string;
  (** whether [Octocrab::builder().personal_token(..).build()] succeeds *)
  w_octocrab_build_ok : bool;
  (** [octocrab.repos(owner, repo).get_content().path(path).send()] *)
  w_github_contents : string -> string -> string -> list Content + GhFailure
}.

(** Each external query the program issues; [EvRegexCompile] records each
    call of [Regex::new]. *)
Inductive Event :=
| EvCargoMetadata
| EvRegistryVersions (name : string)
| EvRegistryCrate (name : string)
| EvCargoHome
| EvPathExists (path : string)
| EvFileOpen (path : string)
| EvHttpGet (url : string)
| EvEnvVar (name : string)
| EvGitHubContent (owner repo path : string)
| EvRegexCompile (pattern : string).

(* ------------------------------------------------------------------ *)
(** ** The effect monad: read the world, log events, fail with [EgError] *)

Definition M (A : Type) := World -> list Event * result A.

Definition ret {A} (a : A) : M A := fun _ => ([], Ok a).

Definition bind {A B} (m : M A) (k : A -> M B) : M B :=
  fun w =>
    let (l1, r) := m w in
    match r with
    | Ok a => let (l2, r2) := k a w in (l1 ++ l2, r2)
    | Err e => (l1, Err e)
    end.

Definition throw {A} (e : EgError) : M A := fun _ => ([], Err e).

Definition emit (ev : Event) : M unit := fun _ => ([ev], Ok tt).

Definition ask : M World := fun w => ([], Ok w).

(** [fallible?] on a pure [Result]. *)
Definition lift {A} (r : result A) : M A := fun _ => ([], r).

(** Run [m] and hand its [Result] to the continuation ([if let Ok(..)]). *)
Definition attempt {A} (m : M A) : M (result A) :=
  fun w => let (l, r) := m w in (l, Ok r).

Notation "x <- m ;; k" := (bind m (fun x => k))
  (at level 61, m at next level, right associativity).
Notation "m ;;; k" := (bind m (fun _ => k))
  (at level 61, right associativity).

(* ------------------------------------------------------------------ *)
(** ** Version resolution ([src/rust/version.rs]) *)

Section Resolver.
Context `{Semver}.

(** [crates_io_api::SyncClient::new(..).map_err(|e| EgError::Other(..))?] *)
Definition crates_client : M unit :=
  w <- ask ;;
  if w_client_ok w then ret tt else throw (Other "crates.io client").

(** [VersionResolver::find_in_current_project] *)
Definition find_in_current_project (crate_name : string) : M string :=
  emit EvCargoMetadata ;;;
  w <- ask ;;
  match w_metadata w with
  | None => throw (ProjectError "cargo metadata")
  | Some packages =>
      match find (fun p => String.eqb (fst p) crate_name) packages with
      | Some package => ret (snd package)
      | None =>
          throw (ProjectError ("Crate '" +s+ crate_name +s+
                               "' not found in current project dependencies"))
      end
  end.

(** [VersionResolver::get_latest_version] *)
Definition get_latest_version (crate_name : string) : M string :=
  crates_client ;;;
  emit (EvRegistryCrate crate_name) ;;;
  w <- ask ;;
  match w_get_crate w crate_name with
  | None => throw (DownloadError "Failed to get crate info")
  | Some crate_info => ret (max_version crate_info)
  end.

(** The loop of [get_available_versions] keeping the versions that parse. *)
Fixpoint parse_versions (versions : list string) : list Version :=
  match versions with
  | [] => []
  | num :: rest =>
      match version_parse num with
      | Some v => v :: parse_versions rest
      | None => parse_versions rest
      end
  end.

(** [VersionResolver::get_available_versions] *)
Definition get_available_versions (crate_name : string) : M (list Version) :=
  crates_client ;;;
  emit (EvRegistryVersions crate_name) ;;;
  w <- ask ;;
  match w_crate_versions w crate_name with
  | None => throw (DownloadError "Failed to get versions")
  | Some versions => ret (parse_versions versions)
  end.

(** [Vec::sort] under [Ord] (an insertion sort: for a total order any
    sort yields the same ordering up to equivalent elements). *)
Fixpoint insert_version (v : Version) (l : list Version) : list Version :=
  match l with
  | [] => [v]
  | x :: l' => if version_le v x then v :: l else x :: insert_version v l'
  end.

Fixpoint sort_versions (l : list Version) : list Version :=
  match l with
  | [] => []
  | v :: l' => insert_version v (sort_versions l')
  end.

(** [slice::last] *)
Fixpoint last_opt {A} (l : list A) : option A :=
  match l with
  | [] => None
  | [x] => Some x
  | _ :: l' => last_opt l'
  end.

(** [VersionResolver::resolve_version_constraint] *)
Definition resolve_version_constraint (crate_name constraint : string)
  : M string :=
  match req_parse constraint with
  | inr msg => throw (VersionError msg)
  | inl req =>
      available_versions <- get_available_versions crate_name ;;
      let matching_versions := filter (req_matches req) available_versions in
      match last_opt (sort_versions matching_versions) with
      | Some v => ret (version_to_string v)
      | None =>
          throw (VersionError ("No versions of '" +s+ crate_name +s+
                               "' match constraint '" +s+ constraint +s+ "'"))
      end
  end.

(** [VersionResolver::resolve_version] *)
Definition resolve_version (crate_name : string) (version_spec : option string)
  : M string :=
  match version_spec with
  | Some spec => resolve_version_constraint crate_name spec
  | None =>
      r <- attempt (find_in_current_project crate_name) ;;
      match r with
      | Ok version => ret version
      | Err _ => get_latest_version crate_name
      end
  end.

End Resolver.

(* ------------------------------------------------------------------ *)
(** ** Cargo cache ([src/rust/cache.rs]) *)

(** [CacheManager::new]: the [cache_dir] field. *)
Definition cache_manager_new : M string :=
  emit EvCargoHome ;;;
  w <- ask ;;
  match w_cargo_home w with
  | None => throw CargoHomeNotFound
  | Some cargo_home => ret (cargo_home +s+ "/registry/cache")
  end.

Definition registry_hash_prefix : string := "github.com-1ecc6299db9ec823".

(** [CacheManager::find_cached_crate] *)
Definition find_cached_crate (cache_dir crate_name version : string)
  : M (option string) :=
  let expected_path :=
    cache_dir +s+ "/" +s+ registry_hash_prefix +s+ "/" +s+
    crate_name +s+ "-" +s+ version +s+ ".crate" in
  emit (EvPathExists expected_path) ;;;
  w <- ask ;;
  match w_files w expected_path with
  | Some _ => ret (Some expected_path)
  | None => ret None
  end.

(* ------------------------------------------------------------------ *)
(** ** Archive extraction ([src/rust/extraction.rs]) *)

Section Extraction.
Context `{RegexEngine}.

(** [if let Some(regex) = pattern { find_matches } else { Vec::new() }] *)
Definition matches_for (pattern : option Regex) (content : text)
  : list SearchRange :=
  match pattern with
  | Some regex => find_matches content regex
  | None => []
  end.

(** The [for entry_result in archive.entries()?] loop of
    [extract_examples_from_reader]; entries that are not example files are
    skipped without being read. *)
Fixpoint extract_entries (pattern : option Regex) (items : list ArchiveItem)
  : result (list Example) :=
  match items with
  | [] => Ok []
  | BadEntry :: _ => Err (ExtractionError "Failed to read archive entry")
  | Entry path body :: rest =>
      if is_example_file path then
        match body with
        | None => Err (ExtractionError "Failed to read file content")
        | Some content =>
            let search_matches := matches_for pattern content in
            let filename := entry_filename path in
            match extract_entries pattern rest with
            | Ok examples =>
                Ok (ExampleInMemory filename content search_matches :: examples)
            | Err e => Err e
            end
        end
      else extract_entries pattern rest
  end.

(** [CrateExtractor::extract_examples_from_reader] *)
Definition extract_examples_from_reader (archive : Archive)
  (pattern : option Regex) : result (list Example) :=
  match archive with
  | None => Err (ExtractionError "Failed to read archive entries")
  | Some items => extract_entries pattern items
  end.

(** [CrateExtractor::extract_examples_from_file] *)
Definition extract_examples_from_file (crate_path : string)
  (pattern : option Regex) : M (list Example) :=
  emit (EvFileOpen crate_path) ;;;
  w <- ask ;;
  match w_files w crate_path with
  | None => throw (IoError "open")
  | Some archive => lift (extract_examples_from_reader archive pattern)
  end.

(** [StatusCode::is_success] *)
Definition is_success (status : Z) : bool := (200 <=? status) && (status <? 300).

(** [CrateExtractor::extract_examples_from_download] *)
Definition extract_examples_from_download (crate_name version : string)
  (pattern : option Regex) : M (list Example) :=
  let download_url :=
    "https://static.crates.io/crates/"%string +s+ crate_name +s+ "/" +s+
    crate_name +s+ "-" +s+ version +s+ ".crate" in
  emit (EvHttpGet download_url) ;;;
  w <- ask ;;
  match w_http_get w download_url with
  | None => throw (DownloadError "request")
  | Some (status, bytes) =>
      if is_success status
      then lift (extract_examples_from_reader bytes pattern)
      else throw (DownloadError "Failed to download crate: HTTP status")
  end.

End Extraction.

(* ------------------------------------------------------------------ *)
(** ** GitHub fallback ([src/rust/github.rs]) *)

Section GitHub.
Context `{RegexEngine} `{Codecs}.

(** [GitHubFallback::get_repository_url] *)
Definition get_repository_url (crate_name : string) : M string :=
  crates_client ;;;
  emit (EvRegistryCrate crate_name) ;;;
  w <- ask ;;
  match w_get_crate w crate_name with
  | None => throw (DownloadError "Failed to get crate info")
  | Some crate_info =>
      match repository crate_info with
      | None => throw (GitHubError ("No repository URL found for crate '" +s+
                                    crate_name +s+ "'"))
      | Some url => ret url
      end
  end.

(** [GitHubFallback::is_github_url] *)
Definition is_github_url (url : string) : bool := str_contains "github.com" url.

(** [GitHubFallback::parse_github_url] *)
Definition parse_github_url (url : string) : result (string * string) :=
  let url := str_trim_end_matches ".git" url in
  let parts := str_split slash url in
  let n := List.length parts in
  if Nat.leb 2 n
  then Ok (nth (n - 2) parts EmptyString, nth (n - 1) parts EmptyString)
  else Err (GitHubError ("Invalid GitHub URL format: " +s+ url)).

(** The [for item in content_items.items] loop of [search_github_examples]. *)
Fixpoint collect_github_files (pattern : option Regex) (items : list Content)
  : result (list Example) :=
  match items with
  | [] => Ok []
  | ContentOther _ :: rest => collect_github_files pattern rest
  | ContentFile file :: rest =>
      if str_ends_with ".rs" (gh_name file) then
        match gh_content file with
        | None => collect_github_files pattern rest
        | Some encoded_content =>
            match base64_decode (remove_newlines encoded_content) with
            | None => Err (GitHubError "Failed to decode file content")
            | Some decoded_bytes =>
                match from_utf8 decoded_bytes with
                | None => Err (GitHubError "Invalid UTF-8 in file")
                | Some content =>
                    let search_matches := matches_for pattern content in
                    match collect_github_files pattern rest with
                    | Ok examples =>
                        Ok (ExampleInMemory (gh_name file) content search_matches
                            :: examples)
                    | Err e => Err e
                    end
                end
            end
        end
      else collect_github_files pattern rest
  end.

(** [GitHubFallback::search_github_examples] *)
Definition search_github_examples (owner repo : string) (pattern : option Regex)
  : M (list Example) :=
  emit (EvEnvVar "GITHUB_TOKEN") ;;;
  w <- ask ;;
  match w_env w "GITHUB_TOKEN" with
  | Some _ => if w_octocrab_build_ok w then ret tt
              else throw (GitHubError "octocrab build")
  | None => ret tt
  end ;;;
  emit (EvGitHubContent owner repo "examples") ;;;
  match w_github_contents w owner repo "examples" with
  | inl content_items => lift (collect_github_files pattern content_items)
  | inr _ => ret []
  end.

(** [GitHubFallback::search_examples] *)
Definition search_examples (crate_name version : string) (pattern : option Regex)
  : M (list Example) :=
  repo_url <- get_repository_url crate_name ;;
  if negb (is_github_url repo_url) then ret []
  else
    match parse_github_url repo_url with
    | Err e => throw e
    | Ok (owner, repo) => search_github_examples owner repo pattern
    end.

End GitHub.

(* ------------------------------------------------------------------ *)
(** ** The search builder ([src/rust/mod.rs]) *)

Section Search.
Context `{Semver} `{RegexEngine} `{Codecs}.

Record RustCrateSearch := {
  crate_name : string;
  version_spec : option string;
  pattern : option Regex
}.

(** [RustCrateSearch::new] *)
Definition rcs_new (name : string) : RustCrateSearch :=
  {| crate_name := name; version_spec := None; pattern := None |}.

(** [RustCrateSearch::version] *)
Definition rcs_version (s : RustCrateSearch) (version : string) : RustCrateSearch :=
  {| crate_name := crate_name s; version_spec := Some version;
     pattern := pattern s |}.

(** [RustCrateSearch::pattern] *)
Definition rcs_pattern (s : RustCrateSearch) (p : string) : M RustCrateSearch :=
  emit (EvRegexCompile p) ;;;
  match regex_new p with
  | inr msg => throw (Other ("Invalid regex pattern: " +s+ msg))
  | inl regex =>
      ret {| crate_name := crate_name s; version_spec := version_spec s;
             pattern := Some regex |}
  end.

Definition has_matches (e : Example) : bool :=
  match example_search_matches e with [] => false | _ => true end.

(** [RustCrateSearch::search] *)
Definition rcs_search (s : RustCrateSearch) : M SearchResult :=
  version <- resolve_version (crate_name s) (version_spec s) ;;
  cache_dir <- cache_manager_new ;;
  cached <- find_cached_crate cache_dir (crate_name s) version ;;
  examples <- match cached with
              | Some cached_path =>
                  extract_examples_from_file cached_path (pattern s)
              | None =>
                  extract_examples_from_download (crate_name s) version (pattern s)
              end ;;
  final_examples <- match examples with
                    | [] => search_examples (crate_name s) version (pattern s)
                    | _ => ret examples
                    end ;;
  let total := Z.of_nat (List.length final_examples) in
  let matched :=
    match pattern s with
    | Some _ => Z.of_nat (List.length (filter has_matches final_examples))
    | None => total
    end in
  ret {| sr_version := version; total_examples := total;
         matched_examples := matched; examples := final_examples |}.

(** A complete invocation, as a caller writes it:
    [Eg::rust_crate(name)], then [.version(v)] and [.pattern(p)?] when
    given, then [.search().await]. *)
Definition eg_search (name : string) (version : option string)
  (pat : option string) : M SearchResult :=
  let s0 := rcs_new name in
  let s1 := match version with Some v => rcs_version s0 v | None => s0 end in
  s2 <- match pat with Some p => rcs_pattern s1 p | None => ret s1 end ;;
  rcs_search s2.

End Search.

(* ------------------------------------------------------------------ *)
(** ** Concrete library instances, for evaluating the code on examples *)

Module Instances.

(** Decimal digits. *)
Fixpoint digits_acc (fuel : nat) (z : Z) (acc : string) : string :=
  match fuel with
  | O => acc
  | S f =>
      let acc' := String (ascii_of_nat (48 + Z.to_nat (z mod 10))) acc in
      if z <? 10 then acc' else digits_acc f (z / 10) acc'
  end.

Definition z_to_string (z : Z) : string := digits_acc 20 z EmptyString.

Fixpoint parse_digits (s : string) (acc : Z) : option Z :=
  match s with
  | EmptyString => Some acc
  | String a s' =>
      let d := Z.of_nat (nat_of_ascii a) - 48 in
      if (0 <=? d) && (d <=? 9) then parse_digits s' (10 * acc + d) else None
  end.

Definition parse_number (s : string) : option Z :=
  match s with EmptyString => None | _ => parse_digits s 0 end.

(** Release versions [MAJOR.MINOR.PATCH], ordered lexicographically. *)
Definition triple := (Z * Z * Z)%type.

Definition triple_le (a b : triple) : bool :=
  let '(a1, a2, a3) := a in
  let '(b1, b2, b3) := b in
  (a1 <? b1) || ((a1 =? b1) && ((a2 <? b2) || ((a2 =? b2) && (a3 <=? b3)))).

Definition triple_lt (a b : triple) : bool := negb (triple_le b a).

Definition triple_parse (s : string) : option triple :=
  match str_split "."%char s with
  | [a; b; c] =>
      match parse_number a, parse_number b, parse_number c with
      | Some x, Some y, Some z => Some (x, y, z)
      | _, _, _ => None
      end
  | _ => None
  end.

Definition triple_to_string (v : triple) : string :=
  let '(a, b, c) := v in
  z_to_string a +s+ "." +s+ z_to_string b +s+ "." +s+ z_to_string c.

(** Caret requirements [^M], [^M.m], [^M.m.p] as a half-open range. *)
Definition caret_range (parts : list Z) : option (triple * triple) :=
  match parts with
  | [M] => Some ((M, 0, 0), (M + 1, 0, 0))
  | [M; m] =>
      Some ((M, m, 0), if 0 <? M then (M + 1, 0, 0) else (0, m + 1, 0))
  | [M; m; p] =>
      Some ((M, m, p),
            if 0 <? M then (M + 1, 0, 0)
            else if 0 <? m then (0, m + 1, 0) else (0, 0, p + 1))
  | _ => None
  end.

Fixpoint parse_numbers (l : list string) : option (list Z) :=
  match l with
  | [] => Some []
  | x :: l' =>
      match parse_number x, parse_numbers l' with
      | Some n, Some ns => Some (n :: ns)
      | _, _ => None
      end
  end.

Definition caret_parse (s : string) : (triple * triple) + string :=
  let body := match s with String "^"%char s' => s' | _ => s end in
  match parse_numbers (str_split "."%char body) with
  | Some parts =>
      match caret_range parts with
      | Some r => inl r
      | None => inr "unexpected version requirement"%string
      end
  | None => inr "unexpected character in version requirement"%string
  end.

#[export] Instance caret_semver : Semver := {
  Version := triple;
  version_parse := triple_parse;
  version_to_string := triple_to_string;
  version_le := triple_le;
  VersionReq := triple * triple;
  req_parse := caret_parse;
  req_matches := fun r v => triple_le (fst r) v && triple_lt v (snd r)
}.

(** Literal patterns: the scalar values of the pattern, matched leftmost
    first and without overlap; a pattern with an opening parenthesis is
    rejected (an unclosed group). *)
Fixpoint text_prefix (p t : text) : bool :=
  match p, t with
  | [], _ => true
  | a :: p', b :: t' => (a =? b) && text_prefix p' t'
  | _ :: _, [] => false
  end.

Fixpoint lit_scan (lit : text) (skip : nat) (off : Z) (t : text) : list (Z * Z) :=
  match t with
  | [] => []
  | c :: t' =>
      match skip with
      | S k => lit_scan lit k (off + utf8_len c) t'
      | O =>
          if text_prefix lit t
          then (off, off + byte_len lit)
                 :: lit_scan lit (pred (List.length lit)) (off + utf8_len c) t'
          else lit_scan lit O (off + utf8_len c) t'
      end
  end.

Definition text_of_string (s : string) : text :=
  map (fun a => Z.of_nat (nat_of_ascii a)) (list_ascii_of_string s).

#[export] Instance literal_regex : RegexEngine := {
  Regex := text;
  regex_new := fun p =>
    if str_contains "(" p then inr "unclosed group"%string
    else inl (text_of_string p);
  find_iter := fun lit t => lit_scan lit O 0 t
}.

(** Contents stored without transport encoding, ASCII only. *)
#[export] Instance ascii_codecs : Codecs := {
  base64_decode := fun s => Some (text_of_string s);
  from_utf8 := fun b => if forallb (fun x => x <? 128) b then Some b else None
}.

End Instances.

(* ------------------------------------------------------------------ *)
(** ** Vocabulary of the properties *)

(** The invariant of a match location. *)
Definition range_ok (m : SearchRange) : Prop :=
  byte_start m <= byte_end m /\
  line_start m <= line_end m /\
  (line_start m = line_end m -> column_start m <= column_end m).

(** Lexicographic order on (line, column). *)
Definition lex_le (a b : Z * Z) : Prop :=
  fst a < fst b \/ (fst a = fst b /\ snd a <= snd b).

(** Line terminators ['\n'] in a text. *)
Fixpoint count_newlines (t : text) : Z :=
  match t with
  | [] => 0
  | c :: t' => (if c =? newline then 1 else 0) + count_newlines t'
  end.

(** Scalar values at the front of a list up to the first ['\n']. *)
Fixpoint chars_to_newline (t : text) : nat :=
  match t with
  | [] => O
  | c :: t' => if c =? newline then O else S (chars_to_newline t')
  end.

(** Scalar values after the last ['\n'] of a text. *)
Definition column_chars (t : text) : Z := Z.of_nat (chars_to_newline (rev t)).

(** One iteration of the [byte_to_line_col] loop body. *)
Definition b2lc_step (lc : Z * Z) (ch : Z) : Z * Z :=
  if ch =? newline then (u32_incr (fst lc), 1) else (fst lc, u32_incr (snd lc)).

(** The same loop over unbounded integers. *)
Definition b2lc_step_Z (lc : Z * Z) (ch : Z) : Z * Z :=
  if ch =? newline then (fst lc + 1, 1) else (fst lc, snd lc + 1).

Fixpoint b2lc_loop_Z (t : text) (i byte_pos line col : Z) : Z * Z :=
  match t with
  | [] => (line, col)
  | ch :: t' =>
      if byte_pos <=? i then (line, col)
      else if ch =? newline
           then b2lc_loop_Z t' (i + utf8_len ch) byte_pos (line + 1) 1
           else b2lc_loop_Z t' (i + utf8_len ch) byte_pos line (col + 1)
  end.

(** Every successful outcome of [m] satisfies [P]. *)
Definition post {A} (P : A -> Prop) (m : M A) : Prop :=
  forall w a, snd (m w) = Ok a -> P a.

Definition is_compile_event (ev : Event) : bool :=
  match ev with EvRegexCompile _ => true | _ => false end.

(** An artifact held in memory whose matches are those of [pattern] on its
    contents. *)
Definition in_memory_with `{RegexEngine} (pattern : option Regex) (e : Example)
  : Prop :=
  exists filename contents,
    e = ExampleInMemory filename contents (matches_for pattern contents).

Definition is_in_memory (e : Example) : Prop :=
  exists filename contents search_matches,
    e = ExampleInMemory filename contents search_matches.

(** [m] never compiles a pattern. *)
Definition no_compile {A} (m : M A) : Prop :=
  forall w ev, In ev (fst (m w)) -> is_compile_event ev = false.

(** What a successful search reports, in terms of its artifacts. *)
Definition search_post `{RegexEngine} (s : RustCrateSearch) (res : SearchResult) : Prop :=
  Forall (in_memory_with (pattern s)) (examples res) /\
  total_examples res = Z.of_nat (List.length (examples res)) /\
  matched_examples res =
    match pattern s with
    | Some _ => Z.of_nat (List.length (filter has_matches (examples res)))
    | None => total_examples res
    end.

(** Download requests, and the queries of the GitHub fallback. *)
Definition is_http_get (ev : Event) : bool :=
  match ev with EvHttpGet _ => true | _ => false end.

Definition is_github_event (ev : Event) : bool :=
  match ev with EvEnvVar _ | EvGitHubContent _ _ _ => true | _ => false end.

(** [m] issues no event selected by [bad]. *)
Definition never (bad : Event -> bool) {A} (m : M A) : Prop :=
  forall w ev, In ev (fst (m w)) -> bad ev = false.

(** The same archive with the bodies of its non-example entries made
    unreadable. *)
Definition strip_non_examples (items : list ArchiveItem) : list ArchiveItem :=
  map (fun it =>
         match it with
         | Entry p b => if is_example_file p then Entry p b else Entry p None
         | BadEntry => BadEntry
         end) items.

(** The paths of the readable entries of an archive. *)
Definition entry_paths (items : list ArchiveItem) : list string :=
  flat_map (fun it => match it with Entry p _ => [p] | BadEntry => [] end) items.

(** The name an artifact is reported under. *)
Definition example_name (e : Example) : string :=
  match e with ExampleOnDisk p _ => p | ExampleInMemory f _ _ => f end.

(** The files of a directory listing, in listing order. *)
Definition listed_files (items : list Content) : list GhFile :=
  flat_map (fun it => match it with ContentFile f => [f] | ContentOther _ => [] end)
    items.

Definition has_content (f : GhFile) : bool :=
  match gh_content f with Some _ => true | None => false end.

(** [e] is made of an example-file entry of [items] and holds the whole
    text read from that entry. *)
Definition from_entry `{RegexEngine} (pat : option Regex) (items : list ArchiveItem)
  (e : Example) : Prop :=
  exists path contents,
    In (Entry path (Some contents)) items /\ is_example_file path = true /\
    e = ExampleInMemory (entry_filename path) contents (matches_for pat contents).

(** [e] is made of a listed [.rs] file of [items] and holds the whole text
    its content decodes to. *)
Definition from_github_file `{RegexEngine} `{Codecs} (pat : option Regex)
  (items : list Content) (e : Example) : Prop :=
  exists f enc bytes contents,
    In (ContentFile f) items /\ str_ends_with ".rs"%string (gh_name f) = true /\
    gh_content f = Some enc /\ base64_decode (remove_newlines enc) = Some bytes /\
    from_utf8 bytes = Some contents /\
    e = ExampleInMemory (gh_name f) contents (matches_for pat contents).

(** The URL [extract_examples_from_download] requests. *)
Definition download_url (crate_name version : string) : string :=
  "https://static.crates.io/crates/" +s+ crate_name +s+ "/" +s+
  crate_name +s+ "-" +s+ version +s+ ".crate".

(** [e] holds the whole text of an example of the world: of an archive file
    on disk, of the downloaded archive of [name] at [version], or of a file
    of an [examples] directory on GitHub. *)
Definition acquired `{RegexEngine} `{Codecs} (w : World) (name version : string)
  (pat : option Regex) (e : Example) : Prop :=
  (exists path items, w_files w path = Some (Some items) /\ from_entry pat items e) \/
  (exists status items,
     w_http_get w (download_url name version) = Some (status, Some items) /\
     from_entry pat items e) \/
  (exists owner repo items,
     w_github_contents w owner repo "examples"%string = inl items /\
     from_github_file pat items e).

(* ------------------------------------------------------------------ *)
(** ** Sample worlds *)

Module Samples.
Import Instances.

Definition tokio_archive : Archive :=
  Some [Entry "tokio-1.2.3/Cargo.toml" None;
        Entry "tokio-1.2.3/examples/basic.rs"
          (Some (text_of_string "fn main() { derive(); }"));
        Entry "tokio-1.2.3/src/lib.rs" None].

Definition bare_archive : Archive :=
  Some [Entry "bare-1.0.0/src/lib.rs" None].

(** A project depending on [serde 3.4.1]; crates.io knows every crate with
    the versions 0.9.0, 1.0.0, 1.2.3, 2.0.0 and an unparsable one; the
    download of [tokio] carries one example, any other download none. *)
Definition world (repo : option string) (gh : list Content + GhFailure) : World := {|
  w_metadata := Some [("serde"%string, "3.4.1"%string)];
  w_client_ok := true;
  w_crate_versions := fun _ =>
    Some ["0.9.0"; "1.0.0"; "1.2.3"; "2.0.0"; "nightly"]%string;
  w_get_crate := fun _ => Some {| max_version := "1.2.3"; repository := repo |};
  w_cargo_home := Some "/home/dev/.cargo"%string;
  w_files := fun _ => None;
  w_http_get := fun url =>
    if str_contains "tokio" url then Some (200, tokio_archive)
    else Some (200, bare_archive);
  w_env := fun _ => None;
  w_octocrab_build_ok := true;
  w_github_contents := fun _ _ _ => gh
|}.

Definition w0 : World := world None (inr GhNotFound).

(** A crate whose repository is on GitHub. *)
Definition github_world (gh : list Content + GhFailure) : World :=
  world (Some "https://github.com/owner/bare"%string) gh.

(** A crate whose repository is elsewhere. *)
Definition gitlab_world : World :=
  world (Some "https://gitlab.com/owner/bare"%string) (inr GhNotFound).

(** A listing of an [examples] directory. *)
Definition sample_listing : list Content :=
  [ContentFile {| gh_name := "hello.rs"; gh_content := Some "fn main() {}"%string |};
   ContentOther "data";
   ContentFile {| gh_name := "README.md"; gh_content := Some "docs"%string |};
   ContentFile {| gh_name := "empty.rs"; gh_content := None |};
   ContentFile {| gh_name := "bad.rs";
                  gh_content := Some (String (ascii_of_nat 200) EmptyString) |}].

(** The world [w0] with the archive of [tokio 1.2.3] in the Cargo cache. *)
Definition cached_world : World := {|
  w_metadata := w_metadata w0;
  w_client_ok := w_client_ok w0;
  w_crate_versions := w_crate_versions w0;
  w_get_crate := w_get_crate w0;
  w_cargo_home := w_cargo_home w0;
  w_files := fun p =>
    if String.eqb p ("/home/dev/.cargo/registry/cache/github.com-1ecc6299db9ec823/" ++
                     "tokio-1.2.3.crate")%string
    then Some tokio_archive else None;
  w_http_get := w_http_get w0;
  w_env := w_env w0;
  w_octocrab_build_ok := w_octocrab_build_ok w0;
  w_github_contents := w_github_contents w0
|}.

(** [Eg::rust_crate("tokio").pattern("derive")], and the same search
    without a pattern. *)
Definition tokio_derive : RustCrateSearch :=
  {| crate_name := "tokio"; version_spec := None;
     pattern := Some (text_of_string "derive") |}.

Definition tokio_plain : RustCrateSearch := rcs_new "tokio".

(** The world [w0] in which the crates.io client cannot be built. *)
Definition client_down_world : World := {|
  w_metadata := w_metadata w0;
  w_client_ok := false;
  w_crate_versions := w_crate_versions w0;
  w_get_crate := w_get_crate w0;
  w_cargo_home := w_cargo_home w0;
  w_files := w_files w0;
  w_http_get := w_http_get w0;
  w_env := w_env w0;
  w_octocrab_build_ok := w_octocrab_build_ok w0;
  w_github_contents := w_github_contents w0
|}.

(** A crate on GitHub listing [sample_listing], searched with
    [GITHUB_TOKEN] set, the GitHub client building or not. *)
Definition token_world (build_ok : bool) : World :=
  let w := github_world (inl sample_listing) in {|
  w_metadata := w_metadata w;
  w_client_ok := w_client_ok w;
  w_crate_versions := w_crate_versions w;
  w_get_crate := w_get_crate w;
  w_cargo_home := w_cargo_home w;
  w_files := w_files w;
  w_http_get := w_http_get w;
  w_env := fun k => if String.eqb k "GITHUB_TOKEN" then Some "ghp_sample"%string else None;
  w_octocrab_build_ok := build_ok;
  w_github_contents := w_github_contents w
|}.

(** A crate whose repository URL names the host alone. *)
Definition hostonly_world : World := world (Some "github.com"%string) (inr GhNotFound).

End Samples.

(* ================================================================== *)
(** * Properties *)

(* ------------------------------------------------------------------ *)
(** ** Positions of matches *)

Module Positions.

Lemma utf8_len_pos c : 1 <= utf8_len c <= 4.
Proof. unfold utf8_len; repeat destruct (_ <? _); lia. Qed.

Lemma byte_len_app a b : byte_len (a ++ b) = byte_len a + byte_len b.
Proof. induction a as [|c a IH]; simpl; [|rewrite IH]; lia. Qed.

Lemma length_le_byte_len t : Z.of_nat (List.length t) <= byte_len t.
Proof.
  induction t as [|c t IH]; simpl; [lia|].
  pose proof (utf8_len_pos c); lia.
Qed.

Lemma byte_len_nonneg t : 0 <= byte_len t.
Proof. pose proof (length_le_byte_len t); lia. Qed.

Lemma u32_incr_small z : 0 <= z -> z + 1 < u32_modulus -> u32_incr z = z + 1.
Proof. intros. unfold u32_incr. apply Z.mod_small. lia. Qed.

Lemma as_u32_small z : 0 <= z < u32_modulus -> as_u32 z = z.
Proof. intros. unfold as_u32. apply Z.mod_small. lia. Qed.

(** The loop stopped at the end of a prefix has folded the loop body over
    exactly that prefix. *)
Lemma loop_prefix pre post i l c :
  b2lc_loop (pre ++ post) i (i + byte_len pre) l c = fold_left b2lc_step pre (l, c).
Proof.
  revert i l c.
  induction pre as [|ch pre IH]; intros i l c; simpl.
  - destruct post as [|ch post]; simpl; [reflexivity|].
    replace (i + 0 <=? i) with true by (symmetry; apply Z.leb_le; lia).
    reflexivity.
  - pose proof (utf8_len_pos ch); pose proof (byte_len_nonneg pre).
    replace (i + (utf8_len ch + byte_len pre) <=? i) with false
      by (symmetry; apply Z.leb_gt; lia).
    replace (i + (utf8_len ch + byte_len pre))
      with (i + utf8_len ch + byte_len pre) by lia.
    unfold b2lc_step; simpl.
    destruct (ch =? newline); apply IH.
Qed.

(** Without overflow the [u32] loop is the unbounded one. *)
Lemma loop_no_wrap t i pos l c :
  0 <= l -> 0 <= c ->
  l + Z.of_nat (List.length t) < u32_modulus ->
  c + Z.of_nat (List.length t) < u32_modulus ->
  b2lc_loop t i pos l c = b2lc_loop_Z t i pos l c.
Proof.
  revert i l c.
  induction t as [|ch t IH]; intros i l c Hl Hc Hlt Hct; simpl; [reflexivity|].
  simpl List.length in Hlt, Hct.
  destruct (pos <=? i); [reflexivity|].
  destruct (ch =? newline).
  - rewrite u32_incr_small by lia. apply IH; lia.
  - rewrite u32_incr_small by lia. apply IH; lia.
Qed.

Lemma fold_no_wrap t l c :
  0 <= l -> 0 <= c ->
  l + Z.of_nat (List.length t) < u32_modulus ->
  c + Z.of_nat (List.length t) < u32_modulus ->
  fold_left b2lc_step t (l, c) = fold_left b2lc_step_Z t (l, c).
Proof.
  revert l c.
  induction t as [|ch t IH]; intros l c Hl Hc Hlt Hct; simpl; [reflexivity|].
  simpl List.length in Hlt, Hct.
  unfold b2lc_step, b2lc_step_Z; simpl.
  destruct (ch =? newline);
    rewrite u32_incr_small by lia; apply IH; lia.
Qed.

Lemma lex_le_refl a : lex_le a a.
Proof. right; lia. Qed.

Lemma lex_le_trans a b c : lex_le a b -> lex_le b c -> lex_le a c.
Proof. unfold lex_le; lia. Qed.

Lemma loop_Z_ge t i pos l c : lex_le (l, c) (b2lc_loop_Z t i pos l c).
Proof.
  revert i l c.
  induction t as [|ch t IH]; intros i l c; simpl; [apply lex_le_refl|].
  destruct (pos <=? i); [apply lex_le_refl|].
  destruct (ch =? newline).
  - eapply lex_le_trans; [|apply IH]. left; simpl; lia.
  - eapply lex_le_trans; [|apply IH]. right; simpl; lia.
Qed.

(** The position reached grows with the offset. *)
Lemma loop_Z_mono t i p q l c :
  p <= q -> lex_le (b2lc_loop_Z t i p l c) (b2lc_loop_Z t i q l c).
Proof.
  revert i l c.
  induction t as [|ch t IH]; intros i l c Hpq; simpl; [apply lex_le_refl|].
  destruct (q <=? i) eqn:Hq.
  - replace (p <=? i) with true by (symmetry; apply Z.leb_le; apply Z.leb_le in Hq; lia).
    apply lex_le_refl.
  - destruct (p <=? i).
    + destruct (ch =? newline).
      * eapply lex_le_trans; [|apply loop_Z_ge]. left; simpl; lia.
      * eapply lex_le_trans; [|apply loop_Z_ge]. right; simpl; lia.
    + destruct (ch =? newline); apply IH; exact Hpq.
Qed.

(** Closed form of the unbounded loop from line 1, column 1. *)
Lemma count_newlines_app a b :
  count_newlines (a ++ b) = count_newlines a + count_newlines b.
Proof. induction a as [|c a IH]; simpl; [|rewrite IH]; lia. Qed.

Lemma fold_Z_closed pre :
  fold_left b2lc_step_Z pre (1, 1) = (1 + count_newlines pre, 1 + column_chars pre).
Proof.
  induction pre as [|x pre IH] using rev_ind; [reflexivity|].
  rewrite fold_left_app, IH; cbn [fold_left].
  unfold column_chars; rewrite rev_app_distr; cbn [rev app chars_to_newline].
  rewrite count_newlines_app; cbn [count_newlines].
  unfold b2lc_step_Z, newline; cbn [fst snd].
  destruct (x =? 10); f_equal; lia.
Qed.

Lemma range_of_match t s e :
  0 <= s <= e -> e <= byte_len t -> byte_len t < u32_modulus - 1 ->
  range_ok (match_to_range t (s, e)).
Proof.
  intros Hse He Ht.
  pose proof (length_le_byte_len t).
  unfold match_to_range, byte_to_line_col.
  rewrite !(loop_no_wrap t) by lia.
  pose proof (loop_Z_mono t 0 s e 1 1 (proj2 Hse)) as Hmono.
  destruct (b2lc_loop_Z t 0 s 1 1) as [ls cs].
  destruct (b2lc_loop_Z t 0 e 1 1) as [le ce].
  unfold range_ok, lex_le in *; cbn [fst snd byte_start byte_end line_start
    line_end column_start column_end] in *.
  rewrite !as_u32_small by lia.
  lia.
Qed.

Lemma byte_to_line_col_prefix pre post :
  byte_to_line_col (pre ++ post) (byte_len pre) = fold_left b2lc_step pre (1, 1).
Proof.
  unfold byte_to_line_col.
  replace (byte_len pre) with (0 + byte_len pre) at 1 by lia.
  apply loop_prefix.
Qed.

Lemma match_to_range_bytes t s e :
  byte_start (match_to_range t (s, e)) = as_u32 s /\
  byte_end (match_to_range t (s, e)) = as_u32 e.
Proof.
  unfold match_to_range.
  destruct (byte_to_line_col t s), (byte_to_line_col t e); split; reflexivity.
Qed.

(** The literal engine reports byte ranges inside the haystack. *)
Lemma text_prefix_byte_len p t :
  Instances.text_prefix p t = true -> byte_len p <= byte_len t.
Proof.
  revert t; induction p as [|a p IH]; intros t Hp; simpl.
  - apply byte_len_nonneg.
  - destruct t as [|b t]; simpl in Hp; [discriminate|].
    apply andb_true_iff in Hp as [Hab Hp].
    apply Z.eqb_eq in Hab; subst b.
    specialize (IH t Hp); simpl; lia.
Qed.

Lemma lit_scan_bounds lit t : forall k off s e,
  0 <= off -> In (s, e) (Instances.lit_scan lit k off t) ->
  off <= s <= e /\ e <= off + byte_len t.
Proof.
  induction t as [|c t IH]; intros k off s e Hoff Hin; simpl in Hin; [contradiction|].
  pose proof (utf8_len_pos c); pose proof (byte_len_nonneg t).
  destruct k as [|k].
  - destruct (Instances.text_prefix lit (c :: t)) eqn:Hp.
    + destruct Hin as [Heq | Hin].
      * injection Heq as <- <-.
        pose proof (text_prefix_byte_len _ _ Hp); pose proof (byte_len_nonneg lit).
        simpl in *; lia.
      * apply IH in Hin; simpl; lia.
    + apply IH in Hin; simpl; lia.
  - apply IH in Hin; simpl; lia.
Qed.

Lemma literal_in_bounds : @find_iter_in_bounds Instances.literal_regex.
Proof.
  intros r t s e Hin.
  pose proof (lit_scan_bounds r t O 0 s e (Z.le_refl 0) Hin); lia.
Qed.

Lemma lit_scan_repeat n off r :
  Instances.lit_scan [98] O off (repeat 97 n ++ r) =
  Instances.lit_scan [98] O (off + Z.of_nat n) r.
Proof.
  revert off; induction n as [|n IH]; intros off.
  - simpl; rewrite Z.add_0_r; reflexivity.
  - cbn [repeat app]. cbn [Instances.lit_scan].
    replace (Instances.text_prefix [98] (97 :: repeat 97 n ++ r)) with false
      by reflexivity.
    rewrite IH. f_equal. unfold utf8_len; simpl. lia.
Qed.

Lemma lit_scan_single off :
  Instances.lit_scan [98] O off [98] = [(off, off + 1)].
Proof. reflexivity. Qed.

Lemma fold_repeat_newline n : forall l c,
  0 <= l ->
  fold_left b2lc_step (repeat newline (S n)) (l, c) =
  ((l + Z.of_nat (S n)) mod u32_modulus, 1).
Proof.
  induction n as [|n IH]; intros l c Hl.
  - reflexivity.
  - change (repeat newline (S (S n))) with (newline :: repeat newline (S n)).
    cbn [fold_left].
    replace (b2lc_step (l, c) newline) with (u32_incr l, 1) by reflexivity.
    rewrite IH by (apply Z.mod_pos_bound; reflexivity).
    unfold u32_incr. rewrite Z.add_mod_idemp_l by discriminate.
    f_equal. f_equal. lia.
Qed.

Lemma count_newlines_repeat n : count_newlines (repeat newline n) = Z.of_nat n.
Proof. induction n as [|n IH]; [reflexivity|]. cbn [repeat count_newlines]. rewrite IH.
  replace (newline =? newline) with true by reflexivity. lia.
Qed.

(** C3 (corrected). Claimed: every match location produced by
    [find_matches] satisfies [byte_start <= byte_end], [line_start <=
    line_end] and [column_start <= column_end] on a single line, for every
    text and pattern.  The byte offsets are stored with [as u32]: a text of
    [2^32] bytes whose only match is the single character at byte
    [2^32 - 1] yields [byte_start = 2^32 - 1] and [byte_end = 0]. *)
Lemma find_matches_range_ok_counterexample :
  @find_iter_in_bounds Instances.literal_regex /\
  ~ (forall (content : text) (regex : text) (m : SearchRange),
       In m (@find_matches Instances.literal_regex content regex) ->
       range_ok m).
Proof.
  split; [exact literal_in_bounds|].
  intros Hall.
  set (N := Z.to_nat (2 ^ 32 - 1)).
  assert (HN : Z.of_nat N = 2 ^ 32 - 1) by (unfold N; rewrite Z2Nat.id; lia).
  clearbody N.
  specialize (Hall (repeat 97 N ++ [98]) [98]
                   (match_to_range (repeat 97 N ++ [98]) (2 ^ 32 - 1, 2 ^ 32))).
  destruct Hall as [Hbytes _].
  - unfold find_matches. cbn [find_iter Instances.literal_regex].
    rewrite lit_scan_repeat, lit_scan_single, HN.
    left. f_equal.
  - destruct (match_to_range_bytes (repeat 97 N ++ [98]) (2 ^ 32 - 1) (2 ^ 32))
      as [Hs He].
    rewrite Hs, He in Hbytes. vm_compute in Hbytes. apply Hbytes; reflexivity.
Qed.

(** C3 (corrected), amended. For a regex engine whose matches lie inside
    the haystack and a text of fewer than [2^32 - 1] bytes, every match
    location satisfies [byte_start <= byte_end], [line_start <= line_end]
    and, on a single line, [column_start <= column_end]. *)
Theorem find_matches_range_ok `{RegexEngine} (Hb : find_iter_in_bounds)
  (content : text) (regex : Regex)
  (Hlen : byte_len content < u32_modulus - 1) :
  forall m, In m (find_matches content regex) -> range_ok m.
Proof.
  intros m Hm. unfold find_matches in Hm.
  apply in_map_iff in Hm as [[s e] [<- Hin]].
  destruct (Hb _ _ _ _ Hin).
  apply range_of_match; lia.
Qed.

Lemma find_matches_range_ok_witness :
  @find_iter_in_bounds Instances.literal_regex /\
  byte_len (Instances.text_of_string "fn main() { derive(); }") < u32_modulus - 1 /\
  (forall m, In m (@find_matches Instances.literal_regex
                     (Instances.text_of_string "fn main() { derive(); }")
                     (Instances.text_of_string "derive")) -> range_ok m).
Proof.
  split; [exact literal_in_bounds|].
  split; [vm_compute; reflexivity|].
  apply (@find_matches_range_ok Instances.literal_regex literal_in_bounds).
  vm_compute; reflexivity.
Defined.

Lemma line_wraps_after_newlines n :
  Z.of_nat (S n) = u32_modulus - 1 ->
  byte_to_line_col (repeat newline (S n) ++ []) (byte_len (repeat newline (S n))) <>
  (1 + count_newlines (repeat newline (S n)),
   1 + column_chars (repeat newline (S n))).
Proof.
  intros HN Heq.
  rewrite byte_to_line_col_prefix, fold_repeat_newline in Heq by lia.
  rewrite count_newlines_repeat, HN in Heq.
  injection Heq as Hline _.
  vm_compute in Hline. discriminate Hline.
Qed.

(** C5 (corrected). Claimed: at a match boundary, [byte_to_line_col] gives
    line [1 +] the number of line terminators before the offset and column
    [1 +] the number of scalar values since the last one.  Line and column
    are [u32] counters: after [2^32 - 1] line feeds the line number wraps to
    [0] instead of reaching [2^32]. *)
Lemma byte_to_line_col_closed_counterexample :
  ~ (forall pre post : text,
       byte_to_line_col (pre ++ post) (byte_len pre) =
       (1 + count_newlines pre, 1 + column_chars pre)).
Proof.
  intros Hall.
  apply (line_wraps_after_newlines (Z.to_nat (2 ^ 32 - 2))).
  - rewrite Nat2Z.inj_succ, Z2Nat.id; [reflexivity | discriminate].
  - apply Hall.
Qed.

(** C5 (corrected), amended. At every char boundary of a text below
    [2^32 - 1] bytes, [byte_to_line_col] gives line [1 +] the number of
    ['\n'] before the offset and column [1 +] the number of scalar values
    (not bytes) after the last ['\n'] before it. *)
Theorem byte_to_line_col_closed (pre post : text)
  (Hlen : byte_len pre < u32_modulus - 1) :
  byte_to_line_col (pre ++ post) (byte_len pre) =
  (1 + count_newlines pre, 1 + column_chars pre).
Proof.
  pose proof (length_le_byte_len pre).
  rewrite byte_to_line_col_prefix, fold_no_wrap by lia.
  apply fold_Z_closed.
Qed.

Lemma byte_to_line_col_closed_witness :
  byte_len [97; 10; 233; 98] < u32_modulus - 1 /\
  byte_to_line_col ([97; 10; 233; 98] ++ [99]) (byte_len [97; 10; 233; 98]) =
  (1 + count_newlines [97; 10; 233; 98], 1 + column_chars [97; 10; 233; 98]).
Proof.
  split; [vm_compute; reflexivity|].
  apply byte_to_line_col_closed. vm_compute; reflexivity.
Defined.

End Positions.

(* ------------------------------------------------------------------ *)
(** ** Version resolution *)

Module Resolution.

Section SortFacts.
Context `{Semver}.
Hypothesis Hord : version_order.

Let R (a b : Version) : Prop := version_le a b = true.

Lemma version_le_refl a : version_le a a = true.
Proof. destruct (proj1 Hord a a); assumption. Qed.

Lemma insert_version_in v l x : In x (insert_version v l) <-> v = x \/ In x l.
Proof.
  induction l as [|y l IH]; simpl; [tauto|].
  destruct (version_le v y); simpl; [tauto|].
  rewrite IH; tauto.
Qed.

Lemma sort_versions_in l x : In x (sort_versions l) <-> In x l.
Proof.
  induction l as [|y l IH]; simpl; [tauto|].
  rewrite insert_version_in, IH; intuition.
Qed.

Lemma insert_version_hd a v l :
  HdRel R a l -> R a v -> HdRel R a (insert_version v l).
Proof.
  intros Hhd Hav. destruct l as [|y l]; simpl.
  - constructor; exact Hav.
  - destruct (version_le v y); constructor; [exact Hav|].
    inversion Hhd; assumption.
Qed.

Lemma insert_version_sorted v l : Sorted R l -> Sorted R (insert_version v l).
Proof.
  induction 1 as [|y l Hs IH Hhd]; simpl.
  - repeat constructor.
  - destruct (version_le v y) eqn:Hvy.
    + constructor; [constructor; assumption | constructor; exact Hvy].
    + constructor; [exact IH|].
      apply insert_version_hd; [exact Hhd|].
      destruct (proj1 Hord v y) as [Hc|Hc]; [congruence|exact Hc].
Qed.

Lemma sort_versions_sorted l : Sorted R (sort_versions l).
Proof.
  induction l as [|y l IH]; simpl; [constructor|].
  apply insert_version_sorted, IH.
Qed.

Lemma sort_versions_nil l : sort_versions l = [] -> l = [].
Proof.
  destruct l as [|y l]; simpl; [reflexivity|].
  destruct (sort_versions l) as [|z s]; simpl; [discriminate|].
  destruct (version_le y z); discriminate.
Qed.

Lemma last_opt_none {A} (l : list A) : last_opt l = None -> l = [].
Proof.
  induction l as [|x l IH]; simpl; [reflexivity|].
  destruct l as [|y l]; [discriminate|]. intros Hl; specialize (IH Hl); discriminate.
Qed.

Lemma last_opt_sorted l v :
  StronglySorted R l -> last_opt l = Some v ->
  In v l /\ forall u, In u l -> version_le u v = true.
Proof.
  induction 1 as [|x l Hs IH Hall]; simpl; [discriminate|].
  destruct l as [|y l].
  - intros [= <-]. split; [left; reflexivity|].
    intros u [<-|[]]; apply version_le_refl.
  - intros Hlast. destruct (IH Hlast) as [Hin Hmax].
    split; [right; exact Hin|].
    intros u [<-|Hu]; [|apply Hmax, Hu].
    rewrite Forall_forall in Hall. apply Hall, Hin.
Qed.

Lemma parse_versions_in vs v :
  In v (parse_versions vs) <-> exists num, In num vs /\ version_parse num = Some v.
Proof.
  induction vs as [|num vs IH]; simpl.
  - split; [intros []|intros [n [[] _]]].
  - destruct (version_parse num) as [u|] eqn:Hp; simpl; rewrite IH.
    + split.
      * intros [<-|[n [Hn Hnv]]]; [exists num; auto | exists n; auto].
      * intros [n [[<-|Hn] Hnv]]; [left; congruence | right; exists n; auto].
    + split.
      * intros [n [Hn Hnv]]; exists n; auto.
      * intros [n [[<-|Hn] Hnv]]; [congruence | exists n; auto].
Qed.

End SortFacts.

Lemma resolve_constraint_run `{Semver} w crate constraint req vs :
  req_parse constraint = inl req -> w_client_ok w = true ->
  w_crate_versions w crate = Some vs ->
  resolve_version crate (Some constraint) w =
  ([EvRegistryVersions crate],
   match last_opt (sort_versions (filter (req_matches req) (parse_versions vs))) with
   | Some v => Ok (version_to_string v)
   | None => Err (VersionError ("No versions of '" +s+ crate +s+
                                "' match constraint '" +s+ constraint +s+ "'"))
   end).
Proof.
  intros Hreq Hclient Hvs.
  unfold resolve_version, resolve_version_constraint.
  rewrite Hreq.
  unfold get_available_versions, crates_client, bind, ask, emit, ret, throw.
  rewrite Hclient, Hvs. simpl.
  destruct (last_opt _); reflexivity.
Qed.

(** C1 (confirmed). For an explicit constraint that parses, resolution
    issues one registry query for the published versions, drops those that
    do not parse, keeps those satisfying the constraint and returns the
    largest of them under semantic-version order; it fails with the
    "no versions match" error exactly when none is left. *)
Theorem resolve_version_constraint_max `{Semver} (Hord : version_order)
  (w : World) (crate constraint : string) (req : VersionReq) (vs : list string)
  (Hreq : req_parse constraint = inl req)
  (Hclient : w_client_ok w = true)
  (Hvs : w_crate_versions w crate = Some vs) :
  let candidate v :=
    (exists num, In num vs /\ version_parse num = Some v) /\
    req_matches req v = true in
  fst (resolve_version crate (Some constraint) w) = [EvRegistryVersions crate] /\
  (((forall v, ~ candidate v) /\
    snd (resolve_version crate (Some constraint) w) =
    Err (VersionError ("No versions of '" +s+ crate +s+
                       "' match constraint '" +s+ constraint +s+ "'")))
   \/
   (exists v, candidate v /\ (forall u, candidate u -> version_le u v = true) /\
    snd (resolve_version crate (Some constraint) w) = Ok (version_to_string v))).
Proof.
  intros candidate.
  assert (Hcand : forall v,
            In v (filter (req_matches req) (parse_versions vs)) <-> candidate v).
  { intros v. unfold candidate. rewrite filter_In, parse_versions_in. tauto. }
  rewrite (resolve_constraint_run w crate constraint req vs Hreq Hclient Hvs).
  split; [reflexivity|]. cbn [snd].
  destruct (last_opt (sort_versions (filter (req_matches req) (parse_versions vs))))
    as [v|] eqn:Hlast.
  - right.
    destruct (last_opt_sorted Hord _ v
                (Sorted_StronglySorted
                   (fun a b c Hab Hbc => proj2 Hord a b c Hab Hbc)
                   (sort_versions_sorted Hord _)) Hlast) as [Hin Hmax].
    exists v. split; [|split; [|reflexivity]].
    + apply Hcand, sort_versions_in, Hin.
    + intros u Hu. apply Hmax, sort_versions_in, Hcand, Hu.
  - left. split; [|reflexivity].
    intros v Hv. apply Hcand in Hv.
    apply last_opt_none, sort_versions_nil in Hlast.
    rewrite Hlast in Hv. destruct Hv.
Qed.

Lemma triple_le_iff a1 a2 a3 b1 b2 b3 :
  Instances.triple_le (a1, a2, a3) (b1, b2, b3) = true <->
  a1 < b1 \/ (a1 = b1 /\ (a2 < b2 \/ (a2 = b2 /\ a3 <= b3))).
Proof.
  unfold Instances.triple_le.
  rewrite orb_true_iff, andb_true_iff, orb_true_iff, andb_true_iff,
    Z.ltb_lt, Z.eqb_eq, Z.ltb_lt, Z.eqb_eq, Z.leb_le.
  tauto.
Qed.

Lemma caret_order : @version_order Instances.caret_semver.
Proof.
  split.
  - intros [[a1 a2] a3] [[b1 b2] b3].
    change (Instances.triple_le (a1, a2, a3) (b1, b2, b3) = true \/
            Instances.triple_le (b1, b2, b3) (a1, a2, a3) = true).
    rewrite !triple_le_iff. lia.
  - intros [[a1 a2] a3] [[b1 b2] b3] [[c1 c2] c3].
    change (Instances.triple_le (a1, a2, a3) (b1, b2, b3) = true ->
            Instances.triple_le (b1, b2, b3) (c1, c2, c3) = true ->
            Instances.triple_le (a1, a2, a3) (c1, c2, c3) = true).
    rewrite !triple_le_iff. lia.
Qed.

Example resolve_caret_example :
  snd (@resolve_version Instances.caret_semver "tokio" (Some "^1.0"%string)
         Samples.w0) = Ok "1.2.3"%string.
Proof. vm_compute. reflexivity. Qed.

Lemma resolve_version_constraint_max_witness :
  @version_order Instances.caret_semver /\
  @req_parse Instances.caret_semver "^1.0" = inl ((1, 0, 0), (2, 0, 0)) /\
  w_client_ok Samples.w0 = true /\
  w_crate_versions Samples.w0 "tokio" =
    Some ["0.9.0"; "1.0.0"; "1.2.3"; "2.0.0"; "nightly"]%string /\
  fst (@resolve_version Instances.caret_semver "tokio" (Some "^1.0"%string)
         Samples.w0) = [EvRegistryVersions "tokio"].
Proof.
  split; [exact caret_order|].
  split; [vm_compute; reflexivity|].
  split; [reflexivity|].
  split; [reflexivity|].
  exact (proj1 (@resolve_version_constraint_max Instances.caret_semver caret_order
                  Samples.w0 "tokio" "^1.0" ((1, 0, 0), (2, 0, 0))
                  ["0.9.0"; "1.0.0"; "1.2.3"; "2.0.0"; "nightly"]%string
                  ltac:(vm_compute; reflexivity) eq_refl eq_refl)).
Defined.

Lemma find_first_entry (pre post : list (string * string)) crate version :
  (forall p, In p pre -> fst p <> crate) ->
  find (fun p => String.eqb (fst p) crate) (pre ++ (crate, version) :: post) =
  Some (crate, version).
Proof.
  induction pre as [|p pre IH]; intros Hpre; simpl.
  - rewrite String.eqb_refl; reflexivity.
  - destruct (String.eqb (fst p) crate) eqn:Hp.
    + apply String.eqb_eq in Hp. exfalso. apply (Hpre p); [left; reflexivity | exact Hp].
    + apply IH. intros q Hq. apply Hpre. right; exact Hq.
Qed.

Lemma find_absent (pkgs : list (string * string)) crate :
  (forall p, In p pkgs -> fst p <> crate) ->
  find (fun p => String.eqb (fst p) crate) pkgs = None.
Proof.
  induction pkgs as [|p pkgs IH]; intros Habs; simpl; [reflexivity|].
  destruct (String.eqb (fst p) crate) eqn:Hp.
  - apply String.eqb_eq in Hp. exfalso. apply (Habs p); [left; reflexivity | exact Hp].
  - apply IH. intros q Hq. apply Habs. right; exact Hq.
Qed.

(** C2 (confirmed). Without a constraint: when the package is in the
    project's dependency graph (the first entry of that name carrying
    [version]), resolution returns [version] after running [cargo metadata]
    only, with no registry query; when it is absent (or the graph cannot be
    read), resolution is exactly the registry's maximum-version lookup, so
    falling through is never an error of its own. *)
Theorem resolve_version_no_constraint `{Semver} (w : World) (crate : string) :
  (forall pkgs pre version post,
     w_metadata w = Some pkgs ->
     pkgs = pre ++ (crate, version) :: post ->
     (forall p, In p pre -> fst p <> crate) ->
     resolve_version crate None w = ([EvCargoMetadata], Ok version)) /\
  ((forall pkgs, w_metadata w = Some pkgs -> forall p, In p pkgs -> fst p <> crate) ->
   resolve_version crate None w =
     (EvCargoMetadata :: fst (get_latest_version crate w),
      snd (get_latest_version crate w)) /\
   (w_client_ok w = true -> forall info, w_get_crate w crate = Some info ->
    snd (resolve_version crate None w) = Ok (max_version info))).
Proof.
  split.
  - intros pkgs pre version post Hmeta -> Hpre.
    unfold resolve_version, find_in_current_project, attempt, bind, ask, emit, ret.
    rewrite Hmeta, find_first_entry by exact Hpre. reflexivity.
  - intros Habs.
    assert (Hrun : resolve_version crate None w =
                   (EvCargoMetadata :: fst (get_latest_version crate w),
                    snd (get_latest_version crate w))).
    { unfold resolve_version, find_in_current_project, attempt, bind, ask, emit, ret,
        throw.
      destruct (w_metadata w) as [pkgs|] eqn:Hmeta.
      - rewrite (find_absent pkgs crate (Habs pkgs eq_refl)). simpl.
        destruct (get_latest_version crate w); reflexivity.
      - simpl. destruct (get_latest_version crate w); reflexivity. }
    split; [exact Hrun|].
    intros Hclient info Hinfo. rewrite Hrun. cbn [snd].
    unfold get_latest_version, crates_client, bind, ask, emit, ret.
    rewrite Hclient, Hinfo. reflexivity.
Qed.

Lemma resolve_version_no_constraint_witness :
  @resolve_version Instances.caret_semver "serde" None Samples.w0 =
    ([EvCargoMetadata], Ok "3.4.1"%string) /\
  snd (@resolve_version Instances.caret_semver "tokio" None Samples.w0) =
    Ok "1.2.3"%string.
Proof.
  destruct (@resolve_version_no_constraint Instances.caret_semver Samples.w0 "serde")
    as [Hpresent _].
  destruct (@resolve_version_no_constraint Instances.caret_semver Samples.w0 "tokio")
    as [_ Habsent].
  split.
  - apply (Hpresent [("serde"%string, "3.4.1"%string)] [] "3.4.1"%string []);
      [reflexivity | reflexivity | intros p []].
  - apply (proj2 (Habsent ltac:(intros pkgs [= <-] p [<-|[]]; discriminate))
             eq_refl {| max_version := "1.2.3"; repository := None |} eq_refl).
Defined.

End Resolution.

(* ------------------------------------------------------------------ *)
(** ** The pattern matcher and archive classification *)

Module Matching.

(** C4 (confirmed). [find_matches] is a function of the text and the
    compiled pattern alone: it reads no world and logs no event, so two
    invocations on the same [(T, P)] give the same ordered list. *)
Theorem find_matches_deterministic `{RegexEngine} (T : text) (P : Regex)
  (r1 r2 : list SearchRange) :
  find_matches T P = r1 -> find_matches T P = r2 -> r1 = r2.
Proof. intros <- <-. reflexivity. Qed.

Lemma find_matches_deterministic_witness :
  let T := Instances.text_of_string "derive x; derive y" in
  let P := Instances.text_of_string "derive" in
  @find_matches Instances.literal_regex T P = @find_matches Instances.literal_regex T P /\
  @find_matches Instances.literal_regex T P = @find_matches Instances.literal_regex T P /\
  @find_matches Instances.literal_regex T P = @find_matches Instances.literal_regex T P.
Proof.
  intros T P. split; [reflexivity|]. split; [reflexivity|].
  exact (@find_matches_deterministic Instances.literal_regex T P _ _ eq_refl eq_refl).
Defined.

Lemma extract_entries_no_pattern `{RegexEngine} (es : list (string * text)) :
  extract_entries None (map (fun '(p, c) => Entry p (Some c)) es) =
  Ok (map (fun '(p, c) => ExampleInMemory (entry_filename p) c [])
          (filter (fun '(p, _) => is_example_file p) es)).
Proof.
  induction es as [|[p c] es IH]; simpl; [reflexivity|].
  destruct (is_example_file p); simpl; rewrite IH; reflexivity.
Qed.

(** C6 (confirmed). An archive entry is an example file iff one of its
    path components is [examples] and its extension is [rs]; without a
    pattern, every such entry becomes an in-memory artifact, in archive
    order, with an empty match set, and the others are skipped. *)
Theorem is_example_file_spec :
  (forall path : string,
     is_example_file path = true <->
     In "examples"%string (path_components path) /\
     path_extension path = Some "rs"%string) /\
  (forall (RE : RegexEngine) (es : list (string * text)),
     @extract_entries RE None (map (fun '(p, c) => Entry p (Some c)) es) =
     Ok (map (fun '(p, c) => ExampleInMemory (entry_filename p) c [])
             (filter (fun '(p, _) => is_example_file p) es))).
Proof.
  split.
  - intros path. unfold is_example_file.
    rewrite andb_true_iff, existsb_exists.
    split.
    + intros [[c [Hin Hc]] Hext]. apply String.eqb_eq in Hc; subst c.
      split; [exact Hin|].
      destruct (path_extension path) as [e|]; [|discriminate].
      apply String.eqb_eq in Hext; subst e; reflexivity.
    + intros [Hin Hext]. split.
      * exists "examples"%string. split; [exact Hin | apply String.eqb_refl].
      * rewrite Hext. apply String.eqb_refl.
  - intros RE es. apply extract_entries_no_pattern.
Qed.

Example classification_examples :
  map is_example_file
    ["serde-1.0.0/examples/derive.rs"; "serde-1.0.0/examples/data/x.json";
     "serde-1.0.0/src/examples.rs"; "serde-1.0.0/examples/.rs";
     "serde-1.0.0/examples/nested/deep.rs"]%string =
  [true; false; false; false; true].
Proof. vm_compute. reflexivity. Qed.

End Matching.

(* ------------------------------------------------------------------ *)
(** ** The search pipeline *)

Module Pipeline.

(** *** Running the monad *)

Lemma bind_ok_inv {A B} (m : M A) (k : A -> M B) w b :
  snd (bind m k w) = Ok b -> exists a, snd (m w) = Ok a /\ snd (k a w) = Ok b.
Proof.
  unfold bind. destruct (m w) as [l1 [a|e]]; simpl.
  - intros Hr; exists a; split; [reflexivity|].
    destruct (k a w) as [l2 r2]; exact Hr.
  - discriminate.
Qed.

Lemma bind_snd_ok {A B} (m : M A) (k : A -> M B) w a :
  snd (m w) = Ok a -> snd (bind m k w) = snd (k a w).
Proof.
  unfold bind. destruct (m w) as [l1 [a'|e]]; cbn [snd]; [|discriminate].
  intros [= <-]. destruct (k a' w); reflexivity.
Qed.

Lemma bind_snd_err {A B} (m : M A) (k : A -> M B) w e :
  snd (m w) = Err e -> snd (bind m k w) = Err e.
Proof.
  unfold bind. destruct (m w) as [l1 [a|e']]; cbn [snd]; [discriminate|].
  intros [= <-]; reflexivity.
Qed.

Lemma bind_fst {A B} (m : M A) (k : A -> M B) w :
  fst (bind m k w) =
  fst (m w) ++ match snd (m w) with Ok a => fst (k a w) | Err _ => [] end.
Proof.
  unfold bind. destruct (m w) as [l1 [a|e]]; cbn [fst snd].
  - destruct (k a w); reflexivity.
  - rewrite app_nil_r; reflexivity.
Qed.

(** *** No computation but [RustCrateSearch::pattern] compiles a pattern *)

Lemma no_compile_ret {A} (a : A) : no_compile (ret a).
Proof. intros w ev []. Qed.

Lemma no_compile_throw {A} e : no_compile (A := A) (throw e).
Proof. intros w ev []. Qed.

Lemma no_compile_ask : no_compile ask.
Proof. intros w ev []. Qed.

Lemma no_compile_lift {A} (r : result A) : no_compile (lift r).
Proof. intros w ev []. Qed.

Lemma no_compile_emit ev : is_compile_event ev = false -> no_compile (emit ev).
Proof. intros Hev w ev' [<-|[]]; exact Hev. Qed.

Lemma no_compile_bind {A B} (m : M A) (k : A -> M B) :
  no_compile m -> (forall a, no_compile (k a)) -> no_compile (bind m k).
Proof.
  intros Hm Hk w ev. rewrite bind_fst, in_app_iff.
  intros [Hin|Hin]; [exact (Hm w ev Hin)|].
  destruct (snd (m w)) as [a|e]; [exact (Hk a w ev Hin)|destruct Hin].
Qed.

Lemma no_compile_attempt {A} (m : M A) : no_compile m -> no_compile (attempt m).
Proof.
  intros Hm w ev. unfold attempt. specialize (Hm w ev).
  destruct (m w); exact Hm.
Qed.

Create HintDb no_compile_db.
#[local] Hint Resolve no_compile_ret no_compile_throw no_compile_ask no_compile_lift
  no_compile_attempt : no_compile_db.

Ltac no_compile_tac :=
  repeat match goal with
  | |- no_compile (bind _ _) => apply no_compile_bind; [|intro]
  | |- no_compile (emit _) => apply no_compile_emit; reflexivity
  | |- no_compile (attempt _) => apply no_compile_attempt
  | |- no_compile (match ?x with _ => _ end) => destruct x
  | |- no_compile (if ?b then _ else _) => destruct b
  | |- no_compile (let _ := _ in _) => cbv zeta
  | |- no_compile _ => solve [eauto with no_compile_db]
  end.

Section Quiet.
Context `{Semver} `{RegexEngine} `{Codecs}.

Lemma crates_client_nc : no_compile crates_client.
Proof. unfold crates_client. no_compile_tac. Qed.
#[local] Hint Resolve crates_client_nc : no_compile_db.

Lemma find_in_current_project_nc n : no_compile (find_in_current_project n).
Proof. unfold find_in_current_project. no_compile_tac. Qed.
#[local] Hint Resolve find_in_current_project_nc : no_compile_db.

Lemma get_latest_version_nc n : no_compile (get_latest_version n).
Proof. unfold get_latest_version. no_compile_tac. Qed.
#[local] Hint Resolve get_latest_version_nc : no_compile_db.

Lemma get_available_versions_nc n : no_compile (get_available_versions n).
Proof. unfold get_available_versions. no_compile_tac. Qed.
#[local] Hint Resolve get_available_versions_nc : no_compile_db.

Lemma resolve_version_nc n v : no_compile (resolve_version n v).
Proof. unfold resolve_version, resolve_version_constraint. no_compile_tac. Qed.
#[local] Hint Resolve resolve_version_nc : no_compile_db.

Lemma cache_manager_new_nc : no_compile cache_manager_new.
Proof. unfold cache_manager_new. no_compile_tac. Qed.
#[local] Hint Resolve cache_manager_new_nc : no_compile_db.

Lemma find_cached_crate_nc d n v : no_compile (find_cached_crate d n v).
Proof. unfold find_cached_crate. no_compile_tac. Qed.
#[local] Hint Resolve find_cached_crate_nc : no_compile_db.

Lemma extract_examples_from_file_nc p pat :
  no_compile (extract_examples_from_file p pat).
Proof. unfold extract_examples_from_file. no_compile_tac. Qed.
#[local] Hint Resolve extract_examples_from_file_nc : no_compile_db.

Lemma extract_examples_from_download_nc n v pat :
  no_compile (extract_examples_from_download n v pat).
Proof. unfold extract_examples_from_download. no_compile_tac. Qed.
#[local] Hint Resolve extract_examples_from_download_nc : no_compile_db.

Lemma get_repository_url_nc n : no_compile (get_repository_url n).
Proof. unfold get_repository_url. no_compile_tac. Qed.
#[local] Hint Resolve get_repository_url_nc : no_compile_db.

Lemma search_github_examples_nc o r pat : no_compile (search_github_examples o r pat).
Proof. unfold search_github_examples. no_compile_tac. Qed.
#[local] Hint Resolve search_github_examples_nc : no_compile_db.

Lemma search_examples_nc n v pat : no_compile (search_examples n v pat).
Proof. unfold search_examples. no_compile_tac. Qed.
#[local] Hint Resolve search_examples_nc : no_compile_db.

Lemma rcs_search_nc s : no_compile (rcs_search s).
Proof. unfold rcs_search. no_compile_tac. Qed.

End Quiet.

(** *** Successful outcomes *)

Lemma post_ret {A} (P : A -> Prop) a : P a -> post P (ret a).
Proof. intros Ha w b [= <-]; exact Ha. Qed.

Lemma post_throw {A} (P : A -> Prop) e : post P (throw e).
Proof. intros w b Hb; discriminate Hb. Qed.

Lemma post_lift {A} (P : A -> Prop) r : (forall a, r = Ok a -> P a) -> post P (lift r).
Proof. intros Hr w b Hb; exact (Hr b Hb). Qed.

Lemma post_true {A} (m : M A) : post (fun _ => True) m.
Proof. intros w b _; exact I. Qed.

Lemma post_bind {A B} (Q : A -> Prop) (P : B -> Prop) m (k : A -> M B) :
  post Q m -> (forall a, Q a -> post P (k a)) -> post P (bind m k).
Proof.
  intros Hm Hk w b Hb. apply bind_ok_inv in Hb as [a [Ha Hb]].
  exact (Hk a (Hm w a Ha) w b Hb).
Qed.

Ltac post_any := apply (post_bind (fun _ => True)); [apply post_true|intros ? _].

Section Outcomes.
Context `{Semver} `{RegexEngine} `{Codecs}.

Lemma extract_entries_in_memory pat items l :
  extract_entries pat items = Ok l -> Forall (in_memory_with pat) l.
Proof.
  revert l. induction items as [|[p body|] rest IH]; simpl; intros l Hl.
  - injection Hl as <-; constructor.
  - destruct (is_example_file p); [|exact (IH l Hl)].
    destruct body as [c|]; [|discriminate].
    destruct (extract_entries pat rest) as [l'|e]; [|discriminate].
    injection Hl as <-. constructor; [|exact (IH l' eq_refl)].
    exists (entry_filename p), c; reflexivity.
  - discriminate.
Qed.

Lemma extract_examples_from_reader_in_memory archive pat l :
  extract_examples_from_reader archive pat = Ok l -> Forall (in_memory_with pat) l.
Proof.
  destruct archive as [items|]; simpl; [apply extract_entries_in_memory|discriminate].
Qed.

Lemma extract_examples_from_file_post p pat :
  post (Forall (in_memory_with pat)) (extract_examples_from_file p pat).
Proof.
  unfold extract_examples_from_file. post_any. post_any.
  match goal with |- post _ (match ?x with _ => _ end) => destruct x end.
  - apply post_lift, extract_examples_from_reader_in_memory.
  - apply post_throw.
Qed.

Lemma extract_examples_from_download_post n v pat :
  post (Forall (in_memory_with pat)) (extract_examples_from_download n v pat).
Proof.
  unfold extract_examples_from_download. cbv zeta. post_any. post_any.
  match goal with |- post _ (match ?x with _ => _ end) => destruct x as [[st arch]|] end.
  - destruct (is_success st); [|apply post_throw].
    apply post_lift, extract_examples_from_reader_in_memory.
  - apply post_throw.
Qed.

Lemma collect_github_files_in_memory pat items l :
  collect_github_files pat items = Ok l -> Forall (in_memory_with pat) l.
Proof.
  revert l. induction items as [|[f|nm] rest IH]; simpl; intros l Hl.
  - injection Hl as <-; constructor.
  - destruct (str_ends_with ".rs" (gh_name f)); [|exact (IH l Hl)].
    destruct (gh_content f) as [enc|]; [|exact (IH l Hl)].
    destruct (base64_decode (remove_newlines enc)) as [b|]; [|discriminate].
    destruct (from_utf8 b) as [c|]; [|discriminate].
    destruct (collect_github_files pat rest) as [l'|e]; [|discriminate].
    injection Hl as <-. constructor; [|exact (IH l' eq_refl)].
    exists (gh_name f), c; reflexivity.
  - exact (IH l Hl).
Qed.

Lemma search_github_examples_post o r pat :
  post (Forall (in_memory_with pat)) (search_github_examples o r pat).
Proof.
  unfold search_github_examples. post_any. post_any. post_any. post_any.
  match goal with |- post _ (match ?x with _ => _ end) => destruct x end.
  - apply post_lift, collect_github_files_in_memory.
  - apply post_ret; constructor.
Qed.

Lemma search_examples_post n v pat :
  post (Forall (in_memory_with pat)) (search_examples n v pat).
Proof.
  unfold search_examples. post_any.
  match goal with |- post _ (if ?b then _ else _) => destruct b end.
  - apply post_ret; constructor.
  - match goal with |- post _ (match ?x with _ => _ end) => destruct x as [[o r]|e] end.
    + apply search_github_examples_post.
    + apply post_throw.
Qed.

Lemma rcs_search_post s : post (search_post s) (rcs_search s).
Proof.
  unfold rcs_search. post_any. post_any. post_any.
  apply (post_bind (Forall (in_memory_with (pattern s)))).
  { match goal with |- post _ (match ?x with _ => _ end) => destruct x end.
    - apply extract_examples_from_file_post.
    - apply extract_examples_from_download_post. }
  intros l Hl.
  apply (post_bind (Forall (in_memory_with (pattern s)))).
  { destruct l as [|e l']; [apply search_examples_post|apply post_ret, Hl]. }
  intros fin Hfin. cbv zeta. apply post_ret.
  unfold search_post; simpl. split; [exact Hfin|split; reflexivity].
Qed.

End Outcomes.

(** *** Runs of the builder and of the fallback *)

Lemma filter_quiet l :
  (forall ev, In ev l -> is_compile_event ev = false) -> filter is_compile_event l = [].
Proof.
  induction l as [|ev l IH]; simpl; intros Hl; [reflexivity|].
  rewrite (Hl ev (or_introl eq_refl)). apply IH; intros ev' Hin; apply Hl; right; exact Hin.
Qed.

Section Runs.
Context `{Semver} `{RegexEngine} `{Codecs}.

Lemma rcs_pattern_ok s p r :
  regex_new p = inl r ->
  rcs_pattern s p = fun _ =>
    ([EvRegexCompile p],
     Ok {| crate_name := crate_name s; version_spec := version_spec s;
           pattern := Some r |}).
Proof. intros Hr. unfold rcs_pattern, bind, emit, ret. rewrite Hr. reflexivity. Qed.

Lemma rcs_pattern_err s p msg :
  regex_new p = inr msg ->
  rcs_pattern s p = fun _ =>
    ([EvRegexCompile p], Err (Other ("Invalid regex pattern: " +s+ msg))).
Proof. intros Hr. unfold rcs_pattern, bind, emit, throw. rewrite Hr. reflexivity. Qed.

Lemma eg_search_ok_inv name vspec pat w res :
  snd (eg_search name vspec pat w) = Ok res ->
  exists s, snd (rcs_search s w) = Ok res /\
    match pat with
    | None => pattern s = None
    | Some p => exists r, regex_new p = inl r /\ pattern s = Some r
    end.
Proof.
  unfold eg_search; cbv zeta; intros Hres.
  apply bind_ok_inv in Hres as [s [Hs Hres]]. exists s; split; [exact Hres|].
  destruct pat as [p|].
  - destruct (regex_new p) as [r|msg] eqn:Hr.
    + rewrite (rcs_pattern_ok _ _ _ Hr) in Hs. injection Hs as <-.
      exists r; split; reflexivity.
    + rewrite (rcs_pattern_err _ _ _ Hr) in Hs. discriminate Hs.
  - injection Hs as <-. destruct vspec; reflexivity.
Qed.

Lemma get_repository_url_snd name w :
  w_client_ok w = true ->
  snd (get_repository_url name w) =
  match w_get_crate w name with
  | None => Err (DownloadError "Failed to get crate info")
  | Some info =>
      match repository info with
      | None => Err (GitHubError ("No repository URL found for crate '" +s+
                                  name +s+ "'"))
      | Some url => Ok url
      end
  end.
Proof.
  intros Hc. unfold get_repository_url, crates_client, bind, ask, emit, ret, throw.
  rewrite Hc. destruct (w_get_crate w name) as [info|]; [|reflexivity].
  destruct (repository info); reflexivity.
Qed.

Lemma search_examples_snd name version pat w url :
  snd (get_repository_url name w) = Ok url ->
  snd (search_examples name version pat w) =
  if negb (is_github_url url) then Ok []
  else match parse_github_url url with
       | Err e => Err e
       | Ok (owner, repo) => snd (search_github_examples owner repo pat w)
       end.
Proof.
  intros Hu. unfold search_examples. rewrite (bind_snd_ok _ _ _ _ Hu).
  destruct (negb (is_github_url url)); [reflexivity|].
  destruct (parse_github_url url) as [[o r]|e]; reflexivity.
Qed.

Lemma search_github_examples_snd owner repo pat w :
  (w_env w "GITHUB_TOKEN" = None \/ w_octocrab_build_ok w = true) ->
  snd (search_github_examples owner repo pat w) =
  match w_github_contents w owner repo "examples" with
  | inl items => collect_github_files pat items
  | inr _ => Ok []
  end.
Proof.
  intros Hb. unfold search_github_examples, bind, ask, emit, ret, throw, lift.
  destruct (w_env w "GITHUB_TOKEN") as [tok|].
  - destruct Hb as [Hb|Hb]; [discriminate Hb|rewrite Hb].
    destruct (w_github_contents w owner repo "examples"); reflexivity.
  - destruct (w_octocrab_build_ok w), (w_github_contents w owner repo "examples");
      reflexivity.
Qed.

Lemma rcs_search_fallback s w version dir cached :
  snd (resolve_version (crate_name s) (version_spec s) w) = Ok version ->
  snd (cache_manager_new w) = Ok dir ->
  snd (find_cached_crate dir (crate_name s) version w) = Ok cached ->
  snd (match cached with
       | Some p => extract_examples_from_file p (pattern s)
       | None => extract_examples_from_download (crate_name s) version (pattern s)
       end w) = Ok [] ->
  (forall e, snd (search_examples (crate_name s) version (pattern s) w) = Err e ->
     snd (rcs_search s w) = Err e) /\
  (forall l, snd (search_examples (crate_name s) version (pattern s) w) = Ok l ->
     exists res, snd (rcs_search s w) = Ok res /\ examples res = l).
Proof.
  intros Hv Hd Hc He. unfold rcs_search.
  rewrite (bind_snd_ok _ _ _ _ Hv); cbv beta.
  rewrite (bind_snd_ok _ _ _ _ Hd); cbv beta.
  rewrite (bind_snd_ok _ _ _ _ Hc); cbv beta.
  rewrite (bind_snd_ok _ _ _ _ He); cbv beta iota.
  split.
  - intros e Hse. apply bind_snd_err; exact Hse.
  - intros l Hl. rewrite (bind_snd_ok _ _ _ _ Hl).
    eexists; split; reflexivity.
Qed.

End Runs.

(** *** Where the contents of an artifact come from *)

Section Contents.
Context `{Semver} `{RegexEngine} `{Codecs}.

Lemma from_entry_cons pat it items e :
  from_entry pat items e -> from_entry pat (it :: items) e.
Proof.
  intros [p [c [Hin Hrest]]]. exists p, c. split; [right; exact Hin|exact Hrest].
Qed.

Lemma extract_entries_full pat items :
  forall l, extract_entries pat items = Ok l -> Forall (from_entry pat items) l.
Proof.
  induction items as [|it items IH]; intros l Hl; cbn [extract_entries] in Hl.
  - injection Hl as <-. constructor.
  - destruct it as [p body|]; [|discriminate Hl].
    destruct (is_example_file p) eqn:Hex.
    + destruct body as [c|]; [|discriminate Hl].
      destruct (extract_entries pat items) as [l'|e] eqn:Hr; [|discriminate Hl].
      injection Hl as <-. constructor.
      * exists p, c. split; [left; reflexivity|split; [exact Hex|reflexivity]].
      * eapply Forall_impl; [|exact (IH l' eq_refl)]. intros e; apply from_entry_cons.
    + eapply Forall_impl; [|exact (IH l Hl)]. intros e; apply from_entry_cons.
Qed.

Lemma from_github_file_cons pat it items e :
  from_github_file pat items e -> from_github_file pat (it :: items) e.
Proof.
  intros [f [enc [b [c [Hin Hrest]]]]]. exists f, enc, b, c.
  split; [right; exact Hin|exact Hrest].
Qed.

Lemma collect_github_files_full pat items :
  forall l, collect_github_files pat items = Ok l -> Forall (from_github_file pat items) l.
Proof.
  induction items as [|it items IH]; intros l Hl; cbn [collect_github_files] in Hl.
  - injection Hl as <-. constructor.
  - destruct it as [f|nm].
    + destruct (str_ends_with ".rs" (gh_name f)) eqn:Hrs.
      * destruct (gh_content f) as [enc|] eqn:Henc.
        -- destruct (base64_decode (remove_newlines enc)) as [b|] eqn:Hb; [|discriminate Hl].
           destruct (from_utf8 b) as [c|] eqn:Hu; [|discriminate Hl].
           destruct (collect_github_files pat items) as [l'|e] eqn:Hr; [|discriminate Hl].
           injection Hl as <-. constructor.
           ++ exists f, enc, b, c. split; [left; reflexivity|].
              repeat split; assumption.
           ++ eapply Forall_impl; [|exact (IH l' eq_refl)].
              intros e; apply from_github_file_cons.
        -- eapply Forall_impl; [|exact (IH l Hl)]. intros e; apply from_github_file_cons.
      * eapply Forall_impl; [|exact (IH l Hl)]. intros e; apply from_github_file_cons.
    + eapply Forall_impl; [|exact (IH l Hl)]. intros e; apply from_github_file_cons.
Qed.

Lemma extract_examples_from_file_full p pat w l :
  snd (extract_examples_from_file p pat w) = Ok l ->
  exists items, w_files w p = Some (Some items) /\ Forall (from_entry pat items) l.
Proof.
  unfold extract_examples_from_file, bind, emit, ask, throw, lift.
  destruct (w_files w p) as [[items|]|] eqn:Hf; cbn; intros Hl; try discriminate Hl.
  exists items. split; [reflexivity|]. exact (extract_entries_full pat items l Hl).
Qed.

Lemma extract_examples_from_download_full n v pat w l :
  snd (extract_examples_from_download n v pat w) = Ok l ->
  exists status items, w_http_get w (download_url n v) = Some (status, Some items) /\
    Forall (from_entry pat items) l.
Proof.
  unfold extract_examples_from_download, bind, emit, ask, throw, lift. cbv zeta.
  match goal with |- context [w_http_get w ?u] =>
    destruct (w_http_get w u) as [[status archive]|] eqn:Hg end;
    [|cbn; intros Hl; discriminate Hl].
  destruct (is_success status); cbn; intros Hl; [|discriminate Hl].
  destruct archive as [items|]; [|discriminate Hl].
  exists status, items. split; [exact Hg|]. exact (extract_entries_full pat items l Hl).
Qed.

Lemma search_github_examples_full o r pat w l :
  snd (search_github_examples o r pat w) = Ok l ->
  Forall (fun e => exists owner repo items,
            w_github_contents w owner repo "examples" = inl items /\
            from_github_file pat items e) l.
Proof.
  unfold search_github_examples, bind, emit, ask, ret, throw, lift.
  destruct (w_env w "GITHUB_TOKEN"); [destruct (w_octocrab_build_ok w)|];
    destruct (w_github_contents w o r "examples") as [items|fl] eqn:Hg;
    cbn; intros Hl; try discriminate Hl;
    first [ injection Hl as <-; constructor
          | eapply Forall_impl; [|exact (collect_github_files_full pat items l Hl)];
            intros e He; exists o, r, items; split; [exact Hg|exact He] ].
Qed.

Lemma search_examples_full n v pat w l :
  snd (search_examples n v pat w) = Ok l ->
  Forall (fun e => exists owner repo items,
            w_github_contents w owner repo "examples" = inl items /\
            from_github_file pat items e) l.
Proof.
  unfold search_examples. intros Hl.
  apply bind_ok_inv in Hl as [url [_ Hl]]. cbv beta in Hl.
  destruct (negb (is_github_url url)).
  - injection Hl as <-. constructor.
  - destruct (parse_github_url url) as [[o r]|e]; [|discriminate Hl].
    exact (search_github_examples_full o r pat w l Hl).
Qed.

Lemma rcs_search_acquired s w res :
  snd (rcs_search s w) = Ok res ->
  Forall (acquired w (crate_name s) (sr_version res) (pattern s)) (examples res).
Proof.
  unfold rcs_search. intros Hrun.
  apply bind_ok_inv in Hrun as [v [_ Hrun]]. cbv beta in Hrun.
  apply bind_ok_inv in Hrun as [dir [_ Hrun]]. cbv beta in Hrun.
  apply bind_ok_inv in Hrun as [cached [_ Hrun]]. cbv beta in Hrun.
  apply bind_ok_inv in Hrun as [l [Hl Hrun]]. cbv beta in Hrun.
  apply bind_ok_inv in Hrun as [fin [Hfin Hrun]]. cbv beta zeta in Hrun.
  injection Hrun as <-. cbn [examples sr_version].
  assert (Hacq : Forall (acquired w (crate_name s) v (pattern s)) l).
  { destruct cached as [p|].
    - destruct (extract_examples_from_file_full _ _ _ _ Hl) as [items [Hf Hall]].
      eapply Forall_impl; [|exact Hall]. intros e He.
      left. exists p, items. split; [exact Hf|exact He].
    - destruct (extract_examples_from_download_full _ _ _ _ _ Hl)
        as [status [items [Hg Hall]]].
      eapply Forall_impl; [|exact Hall]. intros e He.
      right; left. exists status, items. split; [exact Hg|exact He]. }
  destruct l as [|e l'].
  - apply search_examples_full in Hfin.
    eapply Forall_impl; [|exact Hfin]. intros e He. right; right. exact He.
  - injection Hfin as <-. exact Hacq.
Qed.

(** A listed [.rs] file whose content does not decode fails the listing. *)
Lemma collect_github_files_bad_file pat items f enc :
  In (ContentFile f) items -> str_ends_with ".rs" (gh_name f) = true ->
  gh_content f = Some enc ->
  (base64_decode (remove_newlines enc) = None \/
   exists b, base64_decode (remove_newlines enc) = Some b /\ from_utf8 b = None) ->
  exists msg, collect_github_files pat items = Err (GitHubError msg).
Proof.
  intros Hin Hrs Henc Hbad.
  induction items as [|it rest IH]; simpl in Hin; [contradiction|].
  destruct Hin as [->|Hin].
  - cbn [collect_github_files]. rewrite Hrs, Henc.
    destruct Hbad as [Hb|[b [Hb Hu]]]; rewrite Hb; [eexists; reflexivity|].
    rewrite Hu. eexists; reflexivity.
  - destruct (IH Hin) as [msg Hmsg].
    destruct it as [f'|nm]; cbn [collect_github_files]; [|exists msg; exact Hmsg].
    destruct (str_ends_with ".rs" (gh_name f')); [|exists msg; exact Hmsg].
    destruct (gh_content f') as [enc'|]; [|exists msg; exact Hmsg].
    destruct (base64_decode (remove_newlines enc')) as [b'|]; [|eexists; reflexivity].
    destruct (from_utf8 b') as [c|]; [|eexists; reflexivity].
    rewrite Hmsg. exists msg; reflexivity.
Qed.

End Contents.

(** *** The properties of a search *)

(** C7: a pattern given to the builder is compiled once, by
    [RustCrateSearch::pattern], before anything else runs. When it does not
    compile, the invocation fails with the invalid-pattern error
    ([EgError::Other("Invalid regex pattern: ..")]) and its whole log is that
    one compilation: no registry, cache, file, download or GitHub query is
    made. When it compiles to [r], no other step of the search compiles a
    pattern, and every artifact of a successful search carries the matches
    of that same [r] on its contents. *)
Theorem pattern_compiled_once `{Semver} `{RegexEngine} `{Codecs}
  name vspec p w :
  (forall msg, regex_new p = inr msg ->
     eg_search name vspec (Some p) w =
     ([EvRegexCompile p], Err (Other ("Invalid regex pattern: " +s+ msg)))) /\
  (forall r, regex_new p = inl r ->
     filter is_compile_event (fst (eg_search name vspec (Some p) w))
       = [EvRegexCompile p] /\
     forall res, snd (eg_search name vspec (Some p) w) = Ok res ->
       Forall (fun e => exists filename contents,
                  e = ExampleInMemory filename contents (find_matches contents r))
              (examples res)).
Proof.
  split.
  - intros msg Hm. unfold eg_search; cbv zeta beta iota.
    rewrite (rcs_pattern_err _ _ _ Hm). reflexivity.
  - intros r Hr. split.
    + unfold eg_search; cbv zeta beta iota.
      rewrite (rcs_pattern_ok _ _ _ Hr), bind_fst. cbn [fst snd].
      rewrite filter_app, (filter_quiet _ (rcs_search_nc _ w)). reflexivity.
    + intros res Hres. apply eg_search_ok_inv in Hres as [s [Hs [r' [Hr' Hps]]]].
      rewrite Hr in Hr'. injection Hr' as <-.
      destruct (rcs_search_post s w res Hs) as [Hf _]. rewrite Hps in Hf.
      eapply Forall_impl; [|exact Hf]. intros e [fn [c ->]]. exists fn, c.
      reflexivity.
Qed.

(** C8 (as the code has it): the fallback of [GitHubFallback::search_examples].
    A crates.io client that cannot be built, a crate unknown to crates.io
    and a crate without a repository URL are errors; a repository URL that
    does not contain the text [github.com] gives no examples; a GitHub URL
    that does not parse is a GitHub error; with [GITHUB_TOKEN] set, a
    GitHub client that cannot be built is a GitHub error; once the client
    is built, any failure of the contents request for [examples] (not
    found or transport alike) gives no examples, and a listing gives the
    result of decoding its [.rs] files, whose base64 or UTF-8 failures are
    GitHub errors. When the archive yields no examples, an error of the
    fallback fails the whole search and its examples otherwise become the
    search's. *)
Theorem fallback_policy `{Semver} `{RegexEngine} `{Codecs} :
  (forall name version pat w,
     (w_client_ok w = false ->
        snd (search_examples name version pat w) = Err (Other "crates.io client")) /\
     (w_client_ok w = true ->
     (w_get_crate w name = None ->
        snd (search_examples name version pat w)
          = Err (DownloadError "Failed to get crate info")) /\
     (forall info, w_get_crate w name = Some info -> repository info = None ->
        snd (search_examples name version pat w)
          = Err (GitHubError ("No repository URL found for crate '" +s+
                              name +s+ "'"))) /\
     (forall info url, w_get_crate w name = Some info ->
        repository info = Some url -> is_github_url url = false ->
        snd (search_examples name version pat w) = Ok []) /\
     (forall info url owner repo, w_get_crate w name = Some info ->
        repository info = Some url -> is_github_url url = true ->
        parse_github_url url = Ok (owner, repo) ->
        (w_env w "GITHUB_TOKEN" = None \/ w_octocrab_build_ok w = true) ->
        snd (search_examples name version pat w) =
        match w_github_contents w owner repo "examples" with
        | inl items => collect_github_files pat items
        | inr _ => Ok []
        end) /\
     (forall info url e, w_get_crate w name = Some info ->
        repository info = Some url -> is_github_url url = true ->
        parse_github_url url = Err e ->
        snd (search_examples name version pat w) = Err e /\
        exists msg, e = GitHubError msg) /\
     (forall info url owner repo token, w_get_crate w name = Some info ->
        repository info = Some url -> is_github_url url = true ->
        parse_github_url url = Ok (owner, repo) ->
        w_env w "GITHUB_TOKEN" = Some token -> w_octocrab_build_ok w = false ->
        snd (search_examples name version pat w) = Err (GitHubError "octocrab build")) /\
     (forall info url owner repo items f enc, w_get_crate w name = Some info ->
        repository info = Some url -> is_github_url url = true ->
        parse_github_url url = Ok (owner, repo) ->
        (w_env w "GITHUB_TOKEN" = None \/ w_octocrab_build_ok w = true) ->
        w_github_contents w owner repo "examples" = inl items ->
        In (ContentFile f) items -> str_ends_with ".rs" (gh_name f) = true ->
        gh_content f = Some enc ->
        (base64_decode (remove_newlines enc) = None \/
         exists b, base64_decode (remove_newlines enc) = Some b /\ from_utf8 b = None) ->
        exists msg, snd (search_examples name version pat w) = Err (GitHubError msg)))) /\
  (forall s w version dir cached,
     snd (resolve_version (crate_name s) (version_spec s) w) = Ok version ->
     snd (cache_manager_new w) = Ok dir ->
     snd (find_cached_crate dir (crate_name s) version w) = Ok cached ->
     snd (match cached with
          | Some p => extract_examples_from_file p (pattern s)
          | None => extract_examples_from_download (crate_name s) version (pattern s)
          end w) = Ok [] ->
     (forall e, snd (search_examples (crate_name s) version (pattern s) w) = Err e ->
        snd (rcs_search s w) = Err e) /\
     (forall l, snd (search_examples (crate_name s) version (pattern s) w) = Ok l ->
        exists res, snd (rcs_search s w) = Ok res /\ examples res = l)).
Proof.
  split; [|exact rcs_search_fallback].
  intros name version pat w. split.
  { intros Hc. unfold search_examples. apply bind_snd_err.
    cbv beta iota zeta delta [get_repository_url crates_client bind ask throw ret emit].
    rewrite Hc. reflexivity. }
  intros Hc. pose proof (get_repository_url_snd name w Hc) as Hu.
  split; [|split; [|split; [|split; [|split; [|split]]]]].
  - intros Hg. unfold search_examples. apply bind_snd_err.
    rewrite Hu, Hg. reflexivity.
  - intros info Hg Hr. unfold search_examples. apply bind_snd_err.
    rewrite Hu, Hg, Hr. reflexivity.
  - intros info url Hg Hr Hgh.
    rewrite (search_examples_snd name version pat w url) by (rewrite Hu, Hg, Hr; reflexivity).
    rewrite Hgh. reflexivity.
  - intros info url owner repo Hg Hr Hgh Hp Hb.
    rewrite (search_examples_snd name version pat w url) by (rewrite Hu, Hg, Hr; reflexivity).
    rewrite Hgh, Hp. cbn [negb]. exact (search_github_examples_snd owner repo pat w Hb).
  - intros info url e Hg Hr Hgh Hp. split.
    + rewrite (search_examples_snd name version pat w url)
        by (rewrite Hu, Hg, Hr; reflexivity).
      rewrite Hgh, Hp. reflexivity.
    + revert Hp. unfold parse_github_url. cbv zeta.
      destruct (Nat.leb _ _); intros Hp; [discriminate Hp|].
      injection Hp as <-. eexists; reflexivity.
  - intros info url owner repo token Hg Hr Hgh Hp Henv Hb.
    rewrite (search_examples_snd name version pat w url) by (rewrite Hu, Hg, Hr; reflexivity).
    rewrite Hgh, Hp. cbn [negb].
    cbv beta iota zeta delta [search_github_examples bind emit ask throw ret lift].
    rewrite Henv, Hb. reflexivity.
  - intros info url owner repo items f enc Hg Hr Hgh Hp Hb Hcont Hin Hrs Henc Hbad.
    rewrite (search_examples_snd name version pat w url) by (rewrite Hu, Hg, Hr; reflexivity).
    rewrite Hgh, Hp. cbn [negb]. rewrite (search_github_examples_snd owner repo pat w Hb).
    rewrite Hcont. exact (collect_github_files_bad_file pat items f enc Hin Hrs Henc Hbad).
Qed.

(** C9 (as the code has it): a successful search reports as
    [total_examples] the number of its artifacts. With a pattern,
    [matched_examples] is the number of artifacts with at least one match;
    without one, no artifact has a match and [matched_examples] equals
    [total_examples]. *)
Theorem search_counts `{Semver} `{RegexEngine} `{Codecs} name vspec pat w res
  (Hres : snd (eg_search name vspec pat w) = Ok res) :
  total_examples res = Z.of_nat (List.length (examples res)) /\
  match pat with
  | Some _ =>
      matched_examples res = Z.of_nat (List.length (filter has_matches (examples res)))
  | None =>
      matched_examples res = total_examples res /\ filter has_matches (examples res) = []
  end.
Proof.
  apply eg_search_ok_inv in Hres as [s [Hs Hpat]].
  destruct (rcs_search_post s w res Hs) as [Hf [Ht Hm]].
  split; [exact Ht|]. destruct pat as [p|].
  - destruct Hpat as [r [_ Hps]]. rewrite Hps in Hm. exact Hm.
  - rewrite Hpat in Hm, Hf. split; [exact Hm|]. clear -Hf.
    induction Hf as [|e l [fn [c ->]] _ IH]; [reflexivity|]. exact IH.
Qed.

(** C10: every artifact made by an acquisition path is an
    [ExampleInMemory] holding the whole text it was made of, with the
    matches of the pattern on that text: from the cached archive file or
    the downloaded archive, the whole body read from an example-file entry
    of that archive, named after the entry; from the GitHub fallback, the
    whole decoded content of a listed [.rs] file, named after the file. So
    every artifact of a successful search is an [ExampleInMemory], and
    holds the whole text of an archive entry on disk, of the downloaded
    archive of the crate at the reported version, or of a GitHub file. *)
Theorem acquisition_in_memory `{Semver} `{RegexEngine} `{Codecs} :
  (forall p pat w l, snd (extract_examples_from_file p pat w) = Ok l ->
     Forall (in_memory_with pat) l /\
     exists items, w_files w p = Some (Some items) /\ Forall (from_entry pat items) l) /\
  (forall n v pat w l, snd (extract_examples_from_download n v pat w) = Ok l ->
     Forall (in_memory_with pat) l /\
     exists status items,
       w_http_get w (download_url n v) = Some (status, Some items) /\
       Forall (from_entry pat items) l) /\
  (forall n v pat w l, snd (search_examples n v pat w) = Ok l ->
     Forall (in_memory_with pat) l /\
     Forall (fun e => exists owner repo items,
               w_github_contents w owner repo "examples" = inl items /\
               from_github_file pat items e) l) /\
  (forall name vspec pat w res, snd (eg_search name vspec pat w) = Ok res ->
     Forall is_in_memory (examples res)) /\
  (forall s w res, snd (rcs_search s w) = Ok res ->
     Forall (acquired w (crate_name s) (sr_version res) (pattern s)) (examples res)).
Proof.
  split.
  { intros p pat w l Hl. split; [exact (extract_examples_from_file_post p pat w l Hl)|].
    exact (extract_examples_from_file_full p pat w l Hl). }
  split.
  { intros n v pat w l Hl. split; [exact (extract_examples_from_download_post n v pat w l Hl)|].
    exact (extract_examples_from_download_full n v pat w l Hl). }
  split.
  { intros n v pat w l Hl. split; [exact (search_examples_post n v pat w l Hl)|].
    exact (search_examples_full n v pat w l Hl). }
  split; [|exact rcs_search_acquired].
  intros name vspec pat w res Hres.
  apply eg_search_ok_inv in Hres as [s [Hs _]].
  destruct (rcs_search_post s w res Hs) as [Hf _].
  eapply Forall_impl; [|exact Hf]. intros e [fn [c ->]].
  exists fn, c, (matches_for (pattern s) c). reflexivity.
Qed.

End Pipeline.

(* ------------------------------------------------------------------ *)
(** ** The pipeline on the sample worlds *)

Module PipelineRuns.
Import Instances Samples Pipeline.
Local Open Scope string_scope.

(** A malformed pattern: the log is its compilation alone. A valid one
    with an explicit requirement: it is the only compilation. *)
Lemma pattern_compiled_once_witness :
  eg_search "tokio" None (Some "der(ive") w0 =
    ([EvRegexCompile "der(ive"],
     Err (Other ("Invalid regex pattern: " +s+ "unclosed group"))) /\
  filter is_compile_event (fst (eg_search "tokio" (Some "^1.0") (Some "derive") w0))
    = [EvRegexCompile "derive"].
Proof.
  split.
  - apply (proj1 (pattern_compiled_once "tokio" None "der(ive" w0)).
    reflexivity.
  - exact (proj1 (proj2 (pattern_compiled_once "tokio" (Some "^1.0") "derive" w0)
                   (text_of_string "derive") eq_refl)).
Defined.

(** The archive of [bare] has no examples. Its crate declares no
    repository, and the whole search fails; with a GitHub repository whose
    contents request fails in transport, the search succeeds with no
    examples. *)
Lemma fallback_policy_counterexample :
  snd (eg_search "bare" None None w0)
    = Err (GitHubError "No repository URL found for crate 'bare'") /\
  exists res,
    snd (eg_search "bare" None None (github_world (inr GhTransport))) = Ok res /\
    examples res = [].
Proof.
  split; [vm_compute; reflexivity|].
  destruct (snd (eg_search "bare" None None (github_world (inr GhTransport))))
    as [res|e] eqn:E.
  - vm_compute in E. injection E as <-. eexists; split; reflexivity.
  - vm_compute in E. discriminate E.
Qed.

(** A repository outside GitHub, and a GitHub repository whose contents
    request fails in transport: both give no examples. A crates.io client
    that cannot be built, a repository URL naming the host alone, a GitHub
    client that cannot be built with a token set, and a listed [.rs] file
    that is not UTF-8: all are errors. *)
Lemma fallback_policy_witness :
  snd (search_examples "bare" "1.0.0" None gitlab_world) = Ok [] /\
  snd (search_examples "bare" "1.0.0" None (github_world (inr GhTransport))) = Ok [] /\
  snd (search_examples "bare" "1.0.0" None client_down_world)
    = Err (Other "crates.io client") /\
  snd (search_examples "bare" "1.0.0" None hostonly_world)
    = Err (GitHubError "Invalid GitHub URL format: github.com") /\
  snd (search_examples "bare" "1.0.0" None (token_world false))
    = Err (GitHubError "octocrab build") /\
  exists msg,
    snd (search_examples "bare" "1.0.0" None (github_world (inl sample_listing)))
      = Err (GitHubError msg).
Proof.
  split; [|split; [|split; [|split; [|split]]]].
  - refine (proj1 (proj2 (proj2 (proj2 (proj1 fallback_policy "bare" "1.0.0" None
              gitlab_world) eq_refl)))
              _ "https://gitlab.com/owner/bare" eq_refl eq_refl eq_refl).
  - refine (eq_trans (proj1 (proj2 (proj2 (proj2 (proj2 (proj1 fallback_policy "bare"
              "1.0.0" None (github_world (inr GhTransport))) eq_refl))))
              _ "https://github.com/owner/bare" "owner" "bare"
              eq_refl eq_refl eq_refl eq_refl (or_introl eq_refl)) _).
    reflexivity.
  - exact (proj1 (proj1 fallback_policy "bare" "1.0.0" None client_down_world) eq_refl).
  - exact (proj1 (proj1 (proj2 (proj2 (proj2 (proj2 (proj2 (proj1 fallback_policy "bare"
              "1.0.0" None hostonly_world) eq_refl)))))
              _ "github.com" _ eq_refl eq_refl eq_refl eq_refl)).
  - exact (proj1 (proj2 (proj2 (proj2 (proj2 (proj2 (proj2 (proj1 fallback_policy "bare"
              "1.0.0" None (token_world false)) eq_refl))))))
              _ "https://github.com/owner/bare" "owner" "bare" "ghp_sample"
              eq_refl eq_refl eq_refl eq_refl eq_refl eq_refl).
  - refine (proj2 (proj2 (proj2 (proj2 (proj2 (proj2 (proj2 (proj1 fallback_policy "bare"
              "1.0.0" None (github_world (inl sample_listing))) eq_refl))))))
              _ "https://github.com/owner/bare" "owner" "bare" sample_listing
              {| gh_name := "bad.rs";
                 gh_content := Some (String (ascii_of_nat 200) EmptyString) |}
              (String (ascii_of_nat 200) EmptyString)
              eq_refl eq_refl eq_refl eq_refl (or_introl eq_refl) eq_refl _
              eq_refl eq_refl _).
    + simpl. right; right; right; right; left; reflexivity.
    + right. eexists; split; reflexivity.
Defined.

(** Without a pattern, the example of [tokio] has no match and is counted
    as matched all the same. *)
Lemma search_counts_counterexample :
  exists res,
    snd (eg_search "tokio" None None w0) = Ok res /\
    matched_examples res <> Z.of_nat (List.length (filter has_matches (examples res))).
Proof.
  destruct (snd (eg_search "tokio" None None w0)) as [res|e] eqn:E.
  - vm_compute in E. injection E as <-. eexists; split; [reflexivity|].
    vm_compute. discriminate.
  - vm_compute in E. discriminate E.
Qed.

(** With the pattern [derive], the example of [tokio] has one match. *)
Lemma search_counts_witness :
  exists res,
    snd (eg_search "tokio" None (Some "derive") w0) = Ok res /\
    total_examples res = 1 /\ matched_examples res = 1 /\
    (total_examples res = Z.of_nat (List.length (examples res)) /\
     matched_examples res = Z.of_nat (List.length (filter has_matches (examples res)))).
Proof.
  destruct (snd (eg_search "tokio" None (Some "derive") w0)) as [res|e] eqn:E.
  - exists res. split; [reflexivity|].
    pose proof (search_counts "tokio" None (Some "derive") w0 res E) as Hc.
    vm_compute in E. injection E as <-. split; [reflexivity|split; [reflexivity|exact Hc]].
  - vm_compute in E. discriminate E.
Defined.

(** The search for [tokio], whose example comes from the downloaded
    archive; its contents are the whole body of [examples/basic.rs]. *)
Lemma acquisition_in_memory_witness :
  (exists res,
    snd (eg_search "tokio" None (Some "derive") w0) = Ok res /\
    examples res <> [] /\ Forall is_in_memory (examples res)) /\
  (exists status items,
    w_http_get w0 (download_url "tokio" "1.2.3") = Some (status, Some items) /\
    Forall (from_entry None items)
      [ExampleInMemory "basic.rs" (text_of_string "fn main() { derive(); }") []]).
Proof.
  split.
  - destruct (snd (eg_search "tokio" None (Some "derive") w0)) as [res|e] eqn:E.
    + exists res. split; [reflexivity|].
      pose proof (proj1 (proj2 (proj2 (proj2 acquisition_in_memory)))
                    "tokio" None (Some "derive") w0 res E) as Hm.
      vm_compute in E. injection E as <-. split; [discriminate|exact Hm].
    + vm_compute in E. discriminate E.
  - exact (proj2 (proj1 (proj2 acquisition_in_memory) "tokio" "1.2.3" None w0
             [ExampleInMemory "basic.rs" (text_of_string "fn main() { derive(); }") []]
             eq_refl)).
Defined.

End PipelineRuns.

(* ================================================================== *)
(** * Further properties of the code *)

(* ------------------------------------------------------------------ *)
(** ** Repository URLs ([GitHubFallback::parse_github_url]) *)

Module GitHubUrls.
Local Open Scope string_scope.

Lemma sappend_nil_r s : s +s+ "" = s.
Proof. induction s as [|a s IH]; simpl; [reflexivity|rewrite IH; reflexivity]. Qed.

Lemma sappend_assoc a b c : a +s+ (b +s+ c) = (a +s+ b) +s+ c.
Proof. induction a as [|x a IH]; simpl; [reflexivity|rewrite IH; reflexivity]. Qed.

Lemma slength_append a b : String.length (a +s+ b) = (String.length a + String.length b)%nat.
Proof. induction a as [|x a IH]; simpl; [reflexivity|rewrite IH; reflexivity]. Qed.

Lemma substring_prefix a b : String.substring 0 (String.length a) (a +s+ b) = a.
Proof. induction a as [|x a IH]; simpl; [destruct b; reflexivity|rewrite IH; reflexivity]. Qed.

Lemma substring_all a : String.substring 0 (String.length a) a = a.
Proof.
  rewrite <- (sappend_nil_r a) at 2. rewrite substring_prefix. reflexivity.
Qed.

Lemma substring_skip a b m k :
  String.substring (String.length a + m) k (a +s+ b) = String.substring m k b.
Proof. induction a as [|x a IH]; simpl; [reflexivity|exact IH]. Qed.

Lemma ends_with_app suf s : str_ends_with suf (s +s+ suf) = true.
Proof.
  unfold str_ends_with. rewrite slength_append.
  replace (String.length s + String.length suf - String.length suf)%nat
    with (String.length s + 0)%nat by lia.
  rewrite substring_skip, substring_all, String.eqb_refl.
  rewrite andb_true_r. apply Nat.leb_le. lia.
Qed.

Lemma trim_not_ending suf s fuel :
  str_ends_with suf s = false -> trim_end_fuel fuel suf s = s.
Proof. intros H; destruct fuel; simpl; [reflexivity|rewrite H; reflexivity]. Qed.

Lemma trim_one suf s :
  suf <> "" -> str_ends_with suf s = false ->
  str_trim_end_matches suf (s +s+ suf) = s.
Proof.
  intros Hne Hs. unfold str_trim_end_matches.
  rewrite slength_append.
  destruct suf as [|x suf']; [congruence|].
  replace (String.length s + String.length (String x suf'))%nat
    with (S (String.length s + String.length suf')) by (simpl; lia).
  cbn [trim_end_fuel]. rewrite ends_with_app, slength_append.
  replace (String.length s + String.length (String x suf') - String.length (String x suf'))%nat
    with (String.length s) by lia.
  rewrite substring_prefix. apply trim_not_ending; exact Hs.
Qed.

Lemma split_aux_no_sep c s cur :
  ~ In c (list_ascii_of_string s) -> split_aux c s cur = [cur +s+ s].
Proof.
  revert cur. induction s as [|a s IH]; intros cur Hs; simpl.
  - rewrite sappend_nil_r; reflexivity.
  - simpl in Hs. destruct (Ascii.eqb_spec a c) as [->|Hac]; [tauto|].
    rewrite IH by tauto. rewrite <- sappend_assoc. reflexivity.
Qed.

Lemma split_aux_sep c s1 s2 cur :
  ~ In c (list_ascii_of_string s2) ->
  split_aux c (s1 +s+ String c s2) cur = (split_aux c s1 cur ++ [s2])%list.
Proof.
  revert cur. induction s1 as [|a s1 IH]; intros cur Hs2; simpl.
  - rewrite Ascii.eqb_refl, split_aux_no_sep by exact Hs2. reflexivity.
  - destruct (Ascii.eqb a c); simpl; rewrite IH by exact Hs2; reflexivity.
Qed.

Lemma split_aux_nonempty c s cur : (1 <= List.length (split_aux c s cur))%nat.
Proof.
  revert cur. induction s as [|a s IH]; intros cur; simpl; [lia|].
  destruct (Ascii.eqb a c); simpl; [lia|apply IH].
Qed.

Lemma split_aux_two c s cur :
  In c (list_ascii_of_string s) -> (2 <= List.length (split_aux c s cur))%nat.
Proof.
  revert cur. induction s as [|a s IH]; intros cur Hs; simpl in *; [tauto|].
  destruct (Ascii.eqb_spec a c) as [->|Hac]; simpl.
  - pose proof (split_aux_nonempty c s ""); lia.
  - apply IH. destruct Hs as [->|Hs]; [congruence|exact Hs].
Qed.

Lemma in_substring_prefix x m s :
  In x (list_ascii_of_string (String.substring 0 m s)) -> In x (list_ascii_of_string s).
Proof.
  revert m. induction s as [|a s IH]; intros m; simpl.
  - destruct m; simpl; tauto.
  - destruct m; simpl; [tauto|]. intros [->|H]; [left; reflexivity|right; exact (IH m H)].
Qed.

Lemma in_trim x fuel suf s :
  In x (list_ascii_of_string (trim_end_fuel fuel suf s)) -> In x (list_ascii_of_string s).
Proof.
  revert s. induction fuel as [|f IH]; intros s; simpl; [tauto|].
  destruct (str_ends_with suf s); [|tauto].
  intros H. apply IH in H. exact (in_substring_prefix _ _ _ H).
Qed.

(** X1. A URL [base/owner/repo], with or without a [.git] suffix, parses
    to [(owner, repo)] when [owner] and [repo] contain no slash and the
    URL does not itself end in [.git]. *)
Theorem parse_github_url_roundtrip (base owner repo : string)
  (Howner : ~ In slash (list_ascii_of_string owner))
  (Hrepo : ~ In slash (list_ascii_of_string repo))
  (Hgit : str_ends_with ".git" (base +s+ "/" +s+ owner +s+ "/" +s+ repo) = false) :
  parse_github_url (base +s+ "/" +s+ owner +s+ "/" +s+ repo) = Ok (owner, repo) /\
  parse_github_url ((base +s+ "/" +s+ owner +s+ "/" +s+ repo) +s+ ".git")
    = Ok (owner, repo).
Proof.
  assert (Hparse : forall u,
            str_trim_end_matches ".git" u = base +s+ "/" +s+ owner +s+ "/" +s+ repo ->
            parse_github_url u = Ok (owner, repo)).
  { intros u Htrim. unfold parse_github_url. rewrite Htrim. cbv zeta.
    assert (Hsplit : str_split slash (base +s+ "/" +s+ owner +s+ "/" +s+ repo)
                     = (str_split slash base ++ [owner; repo])%list).
    { replace (base +s+ "/" +s+ owner +s+ "/" +s+ repo)
        with ((base +s+ String slash owner) +s+ String slash repo)
        by (rewrite <- sappend_assoc; reflexivity).
      unfold str_split. rewrite split_aux_sep by exact Hrepo.
      rewrite split_aux_sep by exact Howner.
      rewrite <- app_assoc. reflexivity. }
    rewrite Hsplit, length_app. cbn [List.length].
    replace (Nat.leb 2 (List.length (str_split slash base) + 2)) with true
      by (symmetry; apply Nat.leb_le; lia).
    replace (List.length (str_split slash base) + 2 - 2)%nat
      with (List.length (str_split slash base)) by lia.
    replace (List.length (str_split slash base) + 2 - 1)%nat
      with (List.length (str_split slash base ++ [owner])%list)
      by (rewrite length_app; simpl; lia).
    rewrite nth_middle.
    replace (str_split slash base ++ [owner; repo])%list
      with ((str_split slash base ++ [owner]) ++ [repo])%list
      by (rewrite <- app_assoc; reflexivity).
    rewrite nth_middle. reflexivity. }
  split; apply Hparse.
  - unfold str_trim_end_matches. apply trim_not_ending. exact Hgit.
  - apply trim_one; [discriminate|exact Hgit].
Qed.

(** X2. After its trailing [.git] suffixes are removed, a URL is rejected
    exactly when it contains no slash; it then fails with the
    invalid-URL error quoting the trimmed URL. *)
Theorem parse_github_url_fails_iff (url : string) :
  (In slash (list_ascii_of_string (str_trim_end_matches ".git" url)) ->
     exists owner repo, parse_github_url url = Ok (owner, repo)) /\
  (~ In slash (list_ascii_of_string (str_trim_end_matches ".git" url)) ->
     parse_github_url url =
     Err (GitHubError ("Invalid GitHub URL format: " +s+
                       str_trim_end_matches ".git" url))).
Proof.
  unfold parse_github_url, str_split. split; intros H; cbv zeta.
  - pose proof (split_aux_two slash _ "" H) as H2.
    apply Nat.leb_le in H2. rewrite H2. eexists; eexists; reflexivity.
  - rewrite (split_aux_no_sep _ _ _ H). reflexivity.
Qed.

Ltac no_slash :=
  let H := fresh in
  intro H; vm_compute in H; repeat (destruct H as [H|H]; [discriminate H|]); exact H.

Ltac has_slash := vm_compute; repeat (first [left; reflexivity | right]).

Lemma parse_github_url_roundtrip_witness :
  parse_github_url "https://github.com/tokio-rs/tokio" = Ok ("tokio-rs", "tokio") /\
  parse_github_url "https://github.com/tokio-rs/tokio.git" = Ok ("tokio-rs", "tokio").
Proof.
  exact (parse_github_url_roundtrip "https://github.com" "tokio-rs" "tokio"
           ltac:(no_slash) ltac:(no_slash) eq_refl).
Defined.

Lemma parse_github_url_fails_iff_witness :
  (exists owner repo,
     parse_github_url "https://github.com/tokio-rs/tokio/" = Ok (owner, repo)) /\
  parse_github_url "tokio.git" = Err (GitHubError ("Invalid GitHub URL format: tokio")).
Proof.
  split.
  - exact (proj1 (parse_github_url_fails_iff "https://github.com/tokio-rs/tokio/")
             ltac:(has_slash)).
  - exact (proj2 (parse_github_url_fails_iff "tokio.git") ltac:(no_slash)).
Defined.

End GitHubUrls.

(* ------------------------------------------------------------------ *)
(** ** Offsets outside character starts ([byte_to_line_col]) *)

Module Offsets.
Import Positions.

(** The loop stops as soon as the offset is not beyond the current
    character start. *)
Lemma loop_stop t i p l c : p <= i -> b2lc_loop t i p l c = (l, c).
Proof.
  intros Hp. destruct t as [|ch t]; simpl; [reflexivity|].
  replace (p <=? i) with true by (symmetry; apply Z.leb_le; lia). reflexivity.
Qed.

(** An offset beyond every character start folds the whole text. *)
Lemma loop_past_end t i p l c :
  i + byte_len t <= p -> b2lc_loop t i p l c = fold_left b2lc_step t (l, c).
Proof.
  revert i l c. induction t as [|ch t IH]; intros i l c Hp; simpl; [reflexivity|].
  simpl in Hp. pose proof (utf8_len_pos ch); pose proof (byte_len_nonneg t).
  replace (p <=? i) with false by (symmetry; apply Z.leb_gt; lia).
  unfold b2lc_step; simpl.
  destruct (ch =? newline); apply IH; lia.
Qed.

(** An offset beyond the start of a prefix continues after it. *)
Lemma loop_after_prefix pre rest i x l c :
  0 < x ->
  b2lc_loop (pre ++ rest) i (i + byte_len pre + x) l c =
  let (l', c') := fold_left b2lc_step pre (l, c) in
  b2lc_loop rest (i + byte_len pre) (i + byte_len pre + x) l' c'.
Proof.
  intros Hx. revert i l c.
  induction pre as [|ch pre IH]; intros i l c; simpl.
  - replace (i + 0) with i by lia. reflexivity.
  - pose proof (utf8_len_pos ch); pose proof (byte_len_nonneg pre).
    replace (i + (utf8_len ch + byte_len pre) + x <=? i) with false
      by (symmetry; apply Z.leb_gt; lia).
    replace (i + (utf8_len ch + byte_len pre) + x)
      with (i + utf8_len ch + byte_len pre + x) by lia.
    replace (i + (utf8_len ch + byte_len pre))
      with (i + utf8_len ch + byte_len pre) by lia.
    unfold b2lc_step; simpl.
    destruct (ch =? newline); apply IH.
Qed.

(** X3. Any offset at or past the end of the text gives the position
    just after its last character. *)
Theorem byte_to_line_col_past_end (t : text) (p : Z) (Hp : byte_len t <= p) :
  byte_to_line_col t p = byte_to_line_col t (byte_len t).
Proof.
  unfold byte_to_line_col.
  rewrite !loop_past_end by lia. reflexivity.
Qed.

(** X4. An offset falling inside the UTF-8 encoding of a character (after
    its first byte) gives the same position as the offset just after that
    character. *)
Theorem byte_to_line_col_inside_char (pre post : text) (ch k : Z)
  (Hk : 0 < k <= utf8_len ch) :
  byte_to_line_col (pre ++ ch :: post) (byte_len pre + k) =
  byte_to_line_col (pre ++ ch :: post) (byte_len pre + utf8_len ch).
Proof.
  pose proof (utf8_len_pos ch).
  unfold byte_to_line_col.
  replace (byte_len pre + k) with (0 + byte_len pre + k) by lia.
  replace (byte_len pre + utf8_len ch) with (0 + byte_len pre + utf8_len ch) by lia.
  rewrite !loop_after_prefix by lia.
  destruct (fold_left b2lc_step pre (1, 1)) as [l c]. cbn [b2lc_loop].
  replace (0 + byte_len pre + k <=? 0 + byte_len pre) with false
    by (symmetry; apply Z.leb_gt; lia).
  replace (0 + byte_len pre + utf8_len ch <=? 0 + byte_len pre) with false
    by (symmetry; apply Z.leb_gt; lia).
  destruct (ch =? newline); rewrite !loop_stop by lia; reflexivity.
Qed.

(** Offset 100 in a 23-byte text. *)
Lemma byte_to_line_col_past_end_witness :
  byte_to_line_col (Instances.text_of_string "fn main() { derive(); }") 100 = (1, 24).
Proof.
  rewrite (byte_to_line_col_past_end (Instances.text_of_string "fn main() { derive(); }") 100
            ltac:(vm_compute; congruence)).
  vm_compute. reflexivity.
Defined.

(** The text ["a" ++ "é" ++ "b"]: offset 2 falls inside the two bytes of
    ["é"] (U+00E9). *)
Lemma byte_to_line_col_inside_char_witness :
  byte_to_line_col [97; 233; 98] 2 = (1, 3).
Proof.
  etransitivity;
    [exact (byte_to_line_col_inside_char [97] [98] 233 1
              ltac:(unfold utf8_len; simpl; lia))|].
  vm_compute. reflexivity.
Defined.

End Offsets.

(* ------------------------------------------------------------------ *)
(** ** Reading archives ([CrateExtractor::extract_examples_from_reader]) *)

Module Archives.

Section Reading.
Context `{RegexEngine}.

(** X5. An unreadable entry anywhere in the archive fails the whole
    extraction with an extraction error: no partial list is returned. *)
Theorem extract_entries_bad_entry (pat : option Regex) (items : list ArchiveItem)
  (Hbad : In BadEntry items) :
  exists msg, extract_entries pat items = Err (ExtractionError msg).
Proof.
  induction items as [|[p body|] rest IH]; simpl in *; [contradiction|..].
  - destruct Hbad as [Hbad|Hbad]; [discriminate Hbad|].
    destruct (IH Hbad) as [msg Hmsg].
    destruct (is_example_file p); [|exists msg; exact Hmsg].
    destruct body as [c|]; [|eexists; reflexivity].
    rewrite Hmsg. exists msg; reflexivity.
  - eexists; reflexivity.
Qed.

(** X6. Only example files are read: the bodies of the other entries,
    readable or not, do not affect the extraction. *)
Theorem extract_entries_reads_examples_only (pat : option Regex)
  (items : list ArchiveItem) :
  extract_entries pat (strip_non_examples items) = extract_entries pat items.
Proof.
  induction items as [|[p body|] rest IH]; simpl; [reflexivity| |reflexivity].
  destruct (is_example_file p) eqn:Hp; simpl; rewrite Hp; [|exact IH].
  destruct body as [c|]; [|reflexivity]. rewrite IH. reflexivity.
Qed.

(** X7. A successful extraction yields one artifact per example-file
    entry, in archive order, named as [entry_filename] names the entry:
    its file name when that is valid UTF-8, and ["unknown"] otherwise. *)
Theorem extract_entries_names (pat : option Regex) (items : list ArchiveItem)
  (l : list Example) (Hl : extract_entries pat items = Ok l) :
  map example_name l = map entry_filename (filter is_example_file (entry_paths items)).
Proof.
  revert l Hl.
  induction items as [|[p body|] rest IH]; simpl; intros l Hl.
  - injection Hl as <-. reflexivity.
  - destruct (is_example_file p); simpl.
    + destruct body as [c|]; [|discriminate].
      destruct (extract_entries pat rest) as [l'|e]; [|discriminate].
      injection Hl as <-. simpl. rewrite (IH l' eq_refl). reflexivity.
    + exact (IH l Hl).
  - discriminate.
Qed.

End Reading.

Lemma extract_entries_bad_entry_witness :
  exists msg,
    @extract_entries Instances.literal_regex None
      [Entry "demo-0.1.0/examples/a.rs" (Some [97]); BadEntry]
    = Err (ExtractionError msg).
Proof.
  exact (@extract_entries_bad_entry Instances.literal_regex None
           [Entry "demo-0.1.0/examples/a.rs" (Some [97]); BadEntry]
           (or_intror (or_introl eq_refl))).
Defined.

(** The third example file is named by the byte [0xFF], which is not
    UTF-8: it is reported as ["unknown"]. *)
Lemma extract_entries_names_witness :
  exists l,
    @extract_entries Instances.literal_regex None
      [Entry "demo-0.1.0/Cargo.toml" None;
       Entry "demo-0.1.0/examples/b.rs" (Some [98]);
       Entry "demo-0.1.0/examples/a.rs" (Some [97]);
       Entry ("demo-0.1.0/examples/" ++ String (ascii_of_nat 255) ".rs")%string
         (Some [99])] = Ok l /\
    map example_name l = ["b.rs"; "a.rs"; "unknown"]%string.
Proof.
  destruct (@extract_entries Instances.literal_regex None
      [Entry "demo-0.1.0/Cargo.toml" None;
       Entry "demo-0.1.0/examples/b.rs" (Some [98]);
       Entry "demo-0.1.0/examples/a.rs" (Some [97]);
       Entry ("demo-0.1.0/examples/" ++ String (ascii_of_nat 255) ".rs")%string
         (Some [99])]) as [l|e] eqn:E.
  - exists l. split; [reflexivity|].
    rewrite (extract_entries_names None _ l E). vm_compute. reflexivity.
  - vm_compute in E. discriminate E.
Defined.

End Archives.

(* ------------------------------------------------------------------ *)
(** ** GitHub directory listings ([GitHubFallback::search_github_examples]) *)

Module GitHubListing.

Section Listing.
Context `{RegexEngine} `{Codecs}.

(** X8. A decoded listing yields one artifact per listed [.rs] file that
    carries content, in listing order and under the file's name;
    subdirectories and other entries, files of other extensions and files
    without content are skipped. *)
Theorem collect_github_files_names (pat : option Regex) (items : list Content)
  (l : list Example) (Hl : collect_github_files pat items = Ok l) :
  map example_name l =
  map gh_name (filter (fun f => str_ends_with ".rs" (gh_name f) && has_content f)
                      (listed_files items)).
Proof.
  revert l Hl.
  induction items as [|[f|nm] rest IH]; simpl; intros l Hl.
  - injection Hl as <-. reflexivity.
  - unfold has_content.
    destruct (str_ends_with ".rs" (gh_name f)); simpl; [|exact (IH l Hl)].
    destruct (gh_content f) as [enc|]; simpl; [|exact (IH l Hl)].
    destruct (base64_decode (remove_newlines enc)) as [b|]; [|discriminate].
    destruct (from_utf8 b) as [c|]; [|discriminate].
    destruct (collect_github_files pat rest) as [l'|e]; [|discriminate].
    injection Hl as <-. simpl. rewrite (IH l' eq_refl). reflexivity.
  - exact (IH l Hl).
Qed.

(** X9. A listed [.rs] file whose content is not valid base64 (once its
    line breaks are removed) or does not decode to UTF-8 fails the whole
    listing with a GitHub error. *)
Theorem collect_github_files_decode_failure (pat : option Regex)
  (items : list Content) (f : GhFile) (enc : string)
  (Hin : In (ContentFile f) items)
  (Hrs : str_ends_with ".rs" (gh_name f) = true)
  (Henc : gh_content f = Some enc)
  (Hbad : base64_decode (remove_newlines enc) = None \/
          exists b, base64_decode (remove_newlines enc) = Some b /\ from_utf8 b = None) :
  exists msg, collect_github_files pat items = Err (GitHubError msg).
Proof.
  induction items as [|it rest IH]; simpl in Hin; [contradiction|].
  assert (Hhead : it = ContentFile f ->
                  exists msg, collect_github_files pat (it :: rest) = Err (GitHubError msg)).
  { intros ->. simpl. rewrite Hrs, Henc.
    destruct Hbad as [Hb|[b [Hb Hu]]]; rewrite Hb; [eexists; reflexivity|].
    rewrite Hu. eexists; reflexivity. }
  destruct Hin as [Heq|Hin]; [exact (Hhead Heq)|].
  destruct (IH Hin) as [msg Hmsg].
  destruct it as [f'|nm]; simpl; [|exists msg; exact Hmsg].
  destruct (str_ends_with ".rs" (gh_name f')); [|exists msg; exact Hmsg].
  destruct (gh_content f') as [enc'|]; [|exists msg; exact Hmsg].
  destruct (base64_decode (remove_newlines enc')) as [b'|]; [|eexists; reflexivity].
  destruct (from_utf8 b') as [c|]; [|eexists; reflexivity].
  rewrite Hmsg. exists msg; reflexivity.
Qed.

End Listing.

Lemma collect_github_files_names_witness :
  exists l,
    @collect_github_files Instances.literal_regex Instances.ascii_codecs None
      (firstn 4 Samples.sample_listing) = Ok l /\
    map example_name l = ["hello.rs"]%string.
Proof.
  destruct (@collect_github_files Instances.literal_regex Instances.ascii_codecs None
              (firstn 4 Samples.sample_listing)) as [l|e] eqn:E.
  - exists l. split; [reflexivity|].
    rewrite (collect_github_files_names None _ l E). vm_compute. reflexivity.
  - vm_compute in E. discriminate E.
Defined.

Lemma collect_github_files_decode_failure_witness :
  exists msg,
    @collect_github_files Instances.literal_regex Instances.ascii_codecs None
      Samples.sample_listing = Err (GitHubError msg).
Proof.
  refine (collect_github_files_decode_failure None Samples.sample_listing
            {| gh_name := "bad.rs";
               gh_content := Some (String (ascii_of_nat 200) EmptyString) |}
            (String (ascii_of_nat 200) EmptyString) _ eq_refl eq_refl _).
  - simpl. right; right; right; right; left; reflexivity.
  - right. eexists; split; reflexivity.
Defined.

End GitHubListing.

(* ------------------------------------------------------------------ *)
(** ** How the steps of a search compose *)

Module Searches.
Import Pipeline.

(** *** Events a computation never issues *)

Section Never.
Variable bad : Event -> bool.

Lemma never_ret {A} (a : A) : never bad (ret a).
Proof. intros w ev []. Qed.

Lemma never_throw {A} e : never bad (A := A) (throw e).
Proof. intros w ev []. Qed.

Lemma never_ask : never bad ask.
Proof. intros w ev []. Qed.

Lemma never_lift {A} (r : result A) : never bad (lift r).
Proof. intros w ev []. Qed.

Lemma never_emit ev : bad ev = false -> never bad (emit ev).
Proof. intros Hev w ev' [<-|[]]; exact Hev. Qed.

(** The events of a run of [bind m k] at one world: those of [m], then
    those of [k] at the value [m] returned. *)
Lemma never_at_bind {A B} (m : M A) (k : A -> M B) w :
  (forall ev, In ev (fst (m w)) -> bad ev = false) ->
  (forall a, snd (m w) = Ok a -> forall ev, In ev (fst (k a w)) -> bad ev = false) ->
  forall ev, In ev (fst (bind m k w)) -> bad ev = false.
Proof.
  intros Hm Hk ev. rewrite bind_fst. rewrite in_app_iff. intros [Hin|Hin].
  - exact (Hm ev Hin).
  - destruct (snd (m w)) as [a|e] eqn:Ha; [exact (Hk a eq_refl ev Hin)|destruct Hin].
Qed.

Lemma never_bind {A B} (m : M A) (k : A -> M B) :
  never bad m -> (forall a, never bad (k a)) -> never bad (bind m k).
Proof.
  intros Hm Hk w. apply never_at_bind; [exact (Hm w)|intros a _; exact (Hk a w)].
Qed.

Lemma never_attempt {A} (m : M A) : never bad m -> never bad (attempt m).
Proof.
  intros Hm w ev. unfold attempt. specialize (Hm w ev).
  destruct (m w); exact Hm.
Qed.

End Never.

Ltac never_tac :=
  repeat match goal with
  | |- never _ (bind _ _) => apply never_bind; [|intro]
  | |- never _ (emit _) => apply never_emit; first [reflexivity | solve [auto]]
  | |- never _ (attempt _) => apply never_attempt
  | |- never _ (ret _) => apply never_ret
  | |- never _ (throw _) => apply never_throw
  | |- never _ ask => apply never_ask
  | |- never _ (lift _) => apply never_lift
  | |- never _ (match ?x with _ => _ end) => destruct x
  | |- never _ (if ?b then _ else _) => destruct b
  | |- never _ (let _ := _ in _) => cbv zeta
  end.

(** *** Runs of the steps *)

Lemma in_bind_l {A B} (m : M A) (k : A -> M B) w ev :
  In ev (fst (m w)) -> In ev (fst (bind m k w)).
Proof. intros Hin. rewrite bind_fst, in_app_iff. left; exact Hin. Qed.

Lemma in_bind_r {A B} (m : M A) (k : A -> M B) w a ev :
  snd (m w) = Ok a -> In ev (fst (k a w)) -> In ev (fst (bind m k w)).
Proof. intros Ha Hin. rewrite bind_fst, in_app_iff, Ha. right; exact Hin. Qed.

Lemma post_at {A} (P : A -> Prop) (m : M A) w a : post P m -> snd (m w) = Ok a -> P a.
Proof. intros Hm Ha; exact (Hm w a Ha). Qed.

Lemma filter_length_le {A} (f : A -> bool) (l : list A) :
  (List.length (filter f l) <= List.length l)%nat.
Proof. induction l as [|x l IH]; simpl; [lia|destruct (f x); simpl; lia]. Qed.

Lemma cache_manager_new_run w home :
  w_cargo_home w = Some home ->
  cache_manager_new w = ([EvCargoHome], Ok (home +s+ "/registry/cache")).
Proof. intros Hh. unfold cache_manager_new, bind, emit, ask, ret. rewrite Hh. reflexivity. Qed.

Lemma find_cached_crate_hit dir name version w archive :
  w_files w (dir +s+ "/" +s+ registry_hash_prefix +s+ "/" +s+
             name +s+ "-" +s+ version +s+ ".crate") = Some archive ->
  find_cached_crate dir name version w =
    ([EvPathExists (dir +s+ "/" +s+ registry_hash_prefix +s+ "/" +s+
                    name +s+ "-" +s+ version +s+ ".crate")],
     Ok (Some (dir +s+ "/" +s+ registry_hash_prefix +s+ "/" +s+
               name +s+ "-" +s+ version +s+ ".crate"))).
Proof.
  intros Hf. unfold find_cached_crate, bind, emit, ask, ret.
  cbv beta iota zeta. rewrite Hf. reflexivity.
Qed.

Lemma extract_examples_from_file_opens `{RegexEngine} p pat w :
  In (EvFileOpen p) (fst (extract_examples_from_file p pat w)).
Proof.
  cbv beta iota zeta delta [extract_examples_from_file bind emit ask].
  destruct (w_files w p) as [a|]; cbv beta iota delta [lift throw]; simpl; left; reflexivity.
Qed.

Section Quiet.
Context `{Semver} `{RegexEngine} `{Codecs}.

Lemma resolve_version_never bad n v :
  bad EvCargoMetadata = false -> (forall n', bad (EvRegistryCrate n') = false) ->
  (forall n', bad (EvRegistryVersions n') = false) ->
  never bad (resolve_version n v).
Proof.
  intros Hq1 Hq2 Hq3.
  unfold resolve_version, resolve_version_constraint, get_available_versions,
    find_in_current_project, get_latest_version, crates_client.
  never_tac.
Qed.

Lemma cache_manager_new_never bad : bad EvCargoHome = false -> never bad cache_manager_new.
Proof. intros Hq1. unfold cache_manager_new. never_tac. Qed.

Lemma find_cached_crate_never bad d n v :
  (forall p, bad (EvPathExists p) = false) -> never bad (find_cached_crate d n v).
Proof. intros Hq1. unfold find_cached_crate. never_tac. Qed.

Lemma extract_examples_from_file_never bad p pat :
  (forall p', bad (EvFileOpen p') = false) -> never bad (extract_examples_from_file p pat).
Proof. intros Hq1. unfold extract_examples_from_file. never_tac. Qed.

Lemma extract_examples_from_download_no_github n v pat :
  never is_github_event (extract_examples_from_download n v pat).
Proof. unfold extract_examples_from_download. never_tac. Qed.

Lemma search_examples_no_http n v pat : never is_http_get (search_examples n v pat).
Proof.
  unfold search_examples, get_repository_url, search_github_examples, crates_client.
  never_tac.
Qed.

End Quiet.

(** *** Properties of a search *)

Section Composition.
Context `{Semver} `{RegexEngine} `{Codecs}.

(** X10: a version requirement that does not parse makes
    [resolve_version] fail with [EgError::Version] carrying the parser's
    message before it issues any query; so a search given that requirement
    and no pattern fails with that error and an empty log. *)
Theorem malformed_requirement_no_query (name constraint msg : string) (w : World)
  (Hbad : req_parse constraint = inr msg) :
  resolve_version name (Some constraint) w = ([], Err (VersionError msg)) /\
  eg_search name (Some constraint) None w = ([], Err (VersionError msg)).
Proof.
  assert (Hr : resolve_version name (Some constraint) w = ([], Err (VersionError msg))).
  { unfold resolve_version, resolve_version_constraint. rewrite Hbad. reflexivity. }
  split; [exact Hr|].
  unfold eg_search, rcs_search, bind at 1 2, ret at 1. cbv beta iota zeta.
  cbn [crate_name version_spec rcs_version rcs_new]. rewrite Hr. reflexivity.
Qed.

(** X11: [.version(v)] and [.pattern(p)] commute: setting the version
    before giving the pattern yields the same log, the same error, or the
    same builder with the version set, as giving the pattern first. *)
Theorem version_pattern_commute (s : RustCrateSearch) (v p : string) (w : World) :
  rcs_pattern (rcs_version s v) p w =
  (fst (rcs_pattern s p w),
   match snd (rcs_pattern s p w) with
   | Ok s' => Ok (rcs_version s' v)
   | Err e => Err e
   end).
Proof.
  unfold rcs_pattern, rcs_version, bind, emit, ret, throw.
  destruct (regex_new p); reflexivity.
Qed.

(** X12: when the resolved version's archive is in the Cargo cache
    ([<cargo home>/registry/cache/<registry>/<name>-<version>.crate]), the
    search opens that file and never issues a download request (nor one to
    GitHub's fallback, which issues none). *)
Theorem cached_crate_not_downloaded (s : RustCrateSearch) (w : World)
  (version home : string) (archive : Archive)
  (Hv : snd (resolve_version (crate_name s) (version_spec s) w) = Ok version)
  (Hh : w_cargo_home w = Some home)
  (Hf : w_files w ((home +s+ "/registry/cache") +s+ "/" +s+ registry_hash_prefix +s+
                   "/" +s+ crate_name s +s+ "-" +s+ version +s+ ".crate") = Some archive) :
  In (EvFileOpen ((home +s+ "/registry/cache") +s+ "/" +s+ registry_hash_prefix +s+
                  "/" +s+ crate_name s +s+ "-" +s+ version +s+ ".crate"))
     (fst (rcs_search s w)) /\
  (forall ev, In ev (fst (rcs_search s w)) -> is_http_get ev = false).
Proof.
  pose proof (cache_manager_new_run w home Hh) as Hd.
  pose proof (find_cached_crate_hit _ _ _ w archive Hf) as Hc.
  split.
  - unfold rcs_search.
    apply (in_bind_r _ _ _ _ _ Hv).
    apply (in_bind_r _ _ _ (home +s+ "/registry/cache")); [rewrite Hd; reflexivity|].
    apply (in_bind_r _ _ _ (Some ((home +s+ "/registry/cache") +s+ "/" +s+
             registry_hash_prefix +s+ "/" +s+ crate_name s +s+ "-" +s+ version +s+
             ".crate"))); [rewrite Hc; reflexivity|].
    apply in_bind_l. apply extract_examples_from_file_opens.
  - unfold rcs_search.
    apply never_at_bind.
    { apply resolve_version_never; reflexivity. }
    intros v' Hv'. rewrite Hv in Hv'. injection Hv' as <-.
    apply never_at_bind.
    { rewrite Hd. intros ev [<-|[]]; reflexivity. }
    intros dir Hdir. rewrite Hd in Hdir. injection Hdir as <-.
    apply never_at_bind.
    { rewrite Hc. intros ev [<-|[]]; reflexivity. }
    intros cached Hcached. rewrite Hc in Hcached. injection Hcached as <-.
    apply never_at_bind.
    { apply extract_examples_from_file_never; reflexivity. }
    intros l _. apply never_bind.
    + destruct l as [|e l'].
      * apply search_examples_no_http.
      * apply never_ret.
    + intros fin. cbv zeta. apply never_ret.
Qed.

(** X13: when the archive (cached or downloaded) yields at least one
    example, the search succeeds with exactly those examples and the
    resolved version, and the GitHub fallback is never consulted: no
    environment or GitHub query is issued. *)
Theorem archive_examples_no_fallback (s : RustCrateSearch) (w : World)
  (version dir : string) (cached : option string) (l : list Example)
  (Hv : snd (resolve_version (crate_name s) (version_spec s) w) = Ok version)
  (Hd : snd (cache_manager_new w) = Ok dir)
  (Hc : snd (find_cached_crate dir (crate_name s) version w) = Ok cached)
  (He : snd (match cached with
             | Some p => extract_examples_from_file p (pattern s)
             | None => extract_examples_from_download (crate_name s) version (pattern s)
             end w) = Ok l)
  (Hl : l <> []) :
  (exists res, snd (rcs_search s w) = Ok res /\ examples res = l /\
               sr_version res = version) /\
  (forall ev, In ev (fst (rcs_search s w)) -> is_github_event ev = false).
Proof.
  split.
  - unfold rcs_search.
    rewrite (bind_snd_ok _ _ _ _ Hv); cbv beta.
    rewrite (bind_snd_ok _ _ _ _ Hd); cbv beta.
    rewrite (bind_snd_ok _ _ _ _ Hc); cbv beta.
    rewrite (bind_snd_ok _ _ _ _ He); cbv beta.
    destruct l as [|e l']; [contradiction|].
    eexists; split; [reflexivity|split; reflexivity].
  - unfold rcs_search.
    apply never_at_bind.
    { apply resolve_version_never; reflexivity. }
    intros v' Hv'. rewrite Hv in Hv'. injection Hv' as <-.
    apply never_at_bind.
    { apply cache_manager_new_never; reflexivity. }
    intros dir' Hdir. rewrite Hd in Hdir. injection Hdir as <-.
    apply never_at_bind.
    { apply find_cached_crate_never; reflexivity. }
    intros cached' Hcached. rewrite Hc in Hcached. injection Hcached as <-.
    apply never_at_bind.
    { destruct cached as [p|].
      - apply extract_examples_from_file_never; reflexivity.
      - apply extract_examples_from_download_no_github. }
    intros l'' Hl''. rewrite He in Hl''. injection Hl'' as <-.
    destruct l as [|e l']; [contradiction|].
    apply never_bind; [apply never_ret|intros fin; cbv zeta; apply never_ret].
Qed.

(** X14: a successful search reports as its version the one
    [resolve_version] resolves for the builder's crate and requirement. *)
Theorem search_reports_resolved_version (s : RustCrateSearch) (w : World)
  (res : SearchResult) (Hres : snd (rcs_search s w) = Ok res) :
  snd (resolve_version (crate_name s) (version_spec s) w) = Ok (sr_version res).
Proof.
  unfold rcs_search in Hres.
  apply bind_ok_inv in Hres as [v [Hv Hk]]. rewrite Hv. f_equal.
  refine (post_at (fun r => v = sr_version r) _ w res _ Hk).
  post_any. post_any. post_any. post_any. cbv zeta.
  apply post_ret. reflexivity.
Qed.

(** X15: in a successful search, the count of matched examples is
    between 0 and the count of examples. *)
Theorem matched_le_total (s : RustCrateSearch) (w : World) (res : SearchResult)
  (Hres : snd (rcs_search s w) = Ok res) :
  0 <= matched_examples res <= total_examples res.
Proof.
  destruct (rcs_search_post s w res Hres) as [_ [Ht Hm]].
  rewrite Hm. destruct (pattern s); rewrite Ht; [|lia].
  pose proof (filter_length_le has_matches (examples res)). lia.
Qed.

(** X16: for a regex engine whose matches lie inside the haystack, every
    match reported by a successful search, on an example of fewer than
    [2^32 - 1] bytes, is a well-formed range: start before end in bytes
    and lines, and in columns on a single line. *)
Theorem search_matches_well_formed (Hb : find_iter_in_bounds)
  (s : RustCrateSearch) (w : World) (res : SearchResult)
  (Hres : snd (rcs_search s w) = Ok res) :
  forall e filename contents ms,
    In e (examples res) -> e = ExampleInMemory filename contents ms ->
    byte_len contents < u32_modulus - 1 ->
    forall m, In m ms -> range_ok m.
Proof.
  intros e fn c ms He -> Hlen m Hm.
  destruct (rcs_search_post s w res Hres) as [Hf _].
  rewrite Forall_forall in Hf. destruct (Hf _ He) as [fn' [c' Heq]].
  inversion Heq; subst. destruct (pattern s) as [r|]; [|destruct Hm].
  cbn [matches_for] in Hm. unfold find_matches in Hm.
  apply in_map_iff in Hm as [[st en] [<- Hin]].
  destruct (Hb _ _ _ _ Hin).
  apply Positions.range_of_match; lia.
Qed.

End Composition.

(** *** Runs *)

Import Instances Samples.
Local Open Scope string_scope.

Lemma malformed_requirement_no_query_witness :
  req_parse "~1.0" = inr "unexpected character in version requirement" /\
  eg_search "tokio" (Some "~1.0") None w0 =
    ([], Err (VersionError "unexpected character in version requirement")).
Proof.
  split; [reflexivity|].
  exact (proj2 (malformed_requirement_no_query "tokio" "~1.0"
                  "unexpected character in version requirement" w0 eq_refl)).
Defined.

(** The search for [tokio] with its archive in the cache. *)
Lemma cached_crate_not_downloaded_witness :
  In (EvFileOpen ("/home/dev/.cargo/registry/cache/github.com-1ecc6299db9ec823/" +s+
                  "tokio-1.2.3.crate"))
     (fst (rcs_search tokio_plain cached_world)) /\
  (forall ev, In ev (fst (rcs_search tokio_plain cached_world)) -> is_http_get ev = false).
Proof.
  exact (cached_crate_not_downloaded tokio_plain cached_world "1.2.3" "/home/dev/.cargo"
           tokio_archive eq_refl eq_refl eq_refl).
Defined.

(** The search for [tokio], whose downloaded archive has one example. *)
Lemma archive_examples_no_fallback_witness :
  (exists res, snd (rcs_search tokio_plain w0) = Ok res /\
     examples res = [ExampleInMemory "basic.rs" (text_of_string "fn main() { derive(); }") []] /\
     sr_version res = "1.2.3") /\
  (forall ev, In ev (fst (rcs_search tokio_plain w0)) -> is_github_event ev = false).
Proof.
  exact (archive_examples_no_fallback tokio_plain w0 "1.2.3" "/home/dev/.cargo/registry/cache"
           None [ExampleInMemory "basic.rs" (text_of_string "fn main() { derive(); }") []]
           eq_refl eq_refl eq_refl eq_refl ltac:(discriminate)).
Defined.

Lemma search_reports_resolved_version_witness :
  exists res, snd (rcs_search tokio_derive w0) = Ok res /\
    snd (resolve_version "tokio" None w0) = Ok (sr_version res) /\
    sr_version res = "1.2.3".
Proof.
  destruct (snd (rcs_search tokio_derive w0)) as [res|e] eqn:E.
  - exists res. split; [reflexivity|].
    pose proof (search_reports_resolved_version tokio_derive w0 res E) as Hv.
    vm_compute in E. injection E as <-. split; [exact Hv|reflexivity].
  - vm_compute in E. discriminate E.
Defined.

Lemma matched_le_total_witness :
  exists res, snd (rcs_search tokio_derive w0) = Ok res /\
    0 <= matched_examples res <= total_examples res /\
    matched_examples res = 1 /\ total_examples res = 1.
Proof.
  destruct (snd (rcs_search tokio_derive w0)) as [res|e] eqn:E.
  - exists res. split; [reflexivity|].
    pose proof (matched_le_total tokio_derive w0 res E) as Hm.
    vm_compute in E. injection E as <-. split; [exact Hm|split; reflexivity].
  - vm_compute in E. discriminate E.
Defined.

(** The match of [derive] in the example of [tokio]. *)
Lemma search_matches_well_formed_witness :
  range_ok {| byte_start := 12; line_start := 1; column_start := 13;
              byte_end := 18; line_end := 1; column_end := 19 |}.
Proof.
  destruct (snd (rcs_search tokio_derive w0)) as [res|e] eqn:E.
  - pose proof (search_matches_well_formed Positions.literal_in_bounds tokio_derive w0 res E)
      as Hr.
    vm_compute in E. injection E as <-.
    exact (Hr _ "basic.rs" (text_of_string "fn main() { derive(); }")
             [{| byte_start := 12; line_start := 1; column_start := 13;
                 byte_end := 18; line_end := 1; column_end := 19 |}]
             (or_introl eq_refl) eq_refl ltac:(vm_compute; reflexivity) _
             (or_introl eq_refl)).
  - vm_compute in E. discriminate E.
Defined.

End Searches.
